(** * immdbg-pycommands: memhash and memyara

    A shallow embedding of the two Immunity Debugger PyCommands
    [PyCommands/memhash.py] and [PyCommands/memyara.py].

    Both scripts are Python 2 command dispatchers.  Their observable
    behaviour is (a) the string they return to the debugger, or the
    exception they let escape, and (b) the sequence of calls they make on
    their collaborators: the debugger object [imm] (log window, tables,
    module lookup, memory reads), [pefile.PE], [hashlib.md5] and [yara].
    The embedding therefore runs every function in a small monad that
    collects the collaborator calls in order and ends in a value or in a
    raised exception. *)

From Stdlib Require Import ZArith List String Ascii Bool Lia.
From Stdlib Require Import DecimalString HexadecimalString HexadecimalN.
Import ListNotations.

#[local] Open Scope string_scope.
#[local] Open Scope Z_scope.

(* ===================================================================== *)
(** ** Python values, exceptions and builtins used by the scripts *)
(* ===================================================================== *)

Module Py.

(** The exception classes that can arise in the two scripts. *)
Inductive exn : Type :=
| ValueError
| TypeError
| IndexError
| ZeroDivisionError
| GetoptError
| YaraSyntaxError
| YaraError
| IOError
| PEFormatError.

Definition exn_eqb (a b : exn) : bool :=
  match a, b with
  | ValueError, ValueError | TypeError, TypeError
  | IndexError, IndexError | ZeroDivisionError, ZeroDivisionError
  | GetoptError, GetoptError | YaraSyntaxError, YaraSyntaxError
  | YaraError, YaraError | IOError, IOError
  | PEFormatError, PEFormatError => true
  | _, _ => false
  end.

(** Outcome of evaluating a Python expression or call. *)
Inductive result (A : Type) : Type :=
| Ok (a : A)
| Raise (e : exn).
Arguments Ok {A} a.
Arguments Raise {A} e.

(** The dynamically typed values that flow through [match.strings]. *)
#[warnings="-register-all"] Inductive pyval : Type :=
| PInt (z : Z)
| PStr (s : string)
| PTuple (items : list pyval).

(** Python 2 [str] holding raw memory. *)
Definition bytes := list Byte.byte.

(** Truthiness of a [str]: only the empty string is false. *)
Definition truthy (s : string) : bool := negb (s =? "")%string.

(** [x is None] on a variable that holds either [None] or a value. *)
Definition is_None {A : Type} (v : option A) : bool :=
  match v with None => true | Some _ => false end.

(** [s.split(sep)] for a one-character separator. *)
Fixpoint split (sep : ascii) (s : string) : list string :=
  match s with
  | EmptyString => [""]
  | String c r =>
      if Ascii.eqb c sep then "" :: split sep r
      else match split sep r with
           | [] => [String c ""]
           | w :: ws => String c w :: ws
           end
  end.

(** [l[i]], negative indices counting from the end. *)
Definition getitem {A : Type} (l : list A) (i : Z) : result A :=
  let n := Z.of_nat (List.length l) in
  let j := if i <? 0 then i + n else i in
  if (j <? 0) || (n <=? j) then Raise IndexError
  else match nth_error l (Z.to_nat j) with
       | Some a => Ok a
       | None => Raise IndexError
       end.

(** [x in t] for a tuple of strings. *)
Fixpoint str_in (x : string) (t : list string) : bool :=
  match t with
  | [] => false
  | y :: t' => (x =? y)%string || str_in x t'
  end.

(** [a % b] on integers: floored, raising on a zero divisor. *)
Definition mod_ (a b : Z) : result Z :=
  if b =? 0 then Raise ZeroDivisionError else Ok (a mod b).

(** ['%d' % z]. *)
Definition fmt_d (z : Z) : string :=
  DecimalString.NilZero.string_of_int (Z.to_int z).

Fixpoint zeros (n : nat) : string :=
  match n with O => "" | S n' => String "0" (zeros n') end.

(** ['%08x' % z]: lower-case hexadecimal, zero padded to a total width of
    eight characters, the sign of a negative number included. *)
Definition fmt_08x (z : Z) : string :=
  let body :=
    HexadecimalString.NilZero.string_of_uint (N.to_hex_uint (Z.abs_N z)) in
  let sign := if z <? 0 then "-" else "" in
  let pad := (8 - String.length sign - String.length body)%nat in
  sign ++ zeros pad ++ body.

(** ['%ld' % v].  A tuple operand is the argument tuple: it must hold
    exactly one number.  A string operand is not a number. *)
Definition fmt_ld (v : pyval) : result string :=
  match v with
  | PInt z => Ok (fmt_d z)
  | PStr _ => Raise TypeError
  | PTuple [PInt z] => Ok (fmt_d z)
  | PTuple _ => Raise TypeError
  end.

(** *** [int(s, 16)]

    The accepted grammar is that of Python 2 for a [str] operand:
    surrounding ASCII whitespace, an optional sign, an optional [0x] or
    [0X] prefix and at least one hexadecimal digit.  Anything else raises
    [ValueError]. *)

Definition is_space (c : ascii) : bool :=
  match Ascii.N_of_ascii c with
  | 9%N | 10%N | 11%N | 12%N | 13%N | 32%N => true
  | _ => false
  end.

Fixpoint lstrip (s : string) : string :=
  match s with
  | EmptyString => ""
  | String c r => if is_space c then lstrip r else s
  end.

Fixpoint rstrip (s : string) : string :=
  match s with
  | EmptyString => ""
  | String c r =>
      let r' := rstrip r in
      if is_space c && (r' =? "")%string then "" else String c r'
  end.

Definition strip (s : string) : string := rstrip (lstrip s).

Definition hex_digit (c : ascii) : option Z :=
  let n := Z.of_N (Ascii.N_of_ascii c) in
  if (48 <=? n) && (n <=? 57) then Some (n - 48)
  else if (97 <=? n) && (n <=? 102) then Some (n - 87)
  else if (65 <=? n) && (n <=? 70) then Some (n - 55)
  else None.

Fixpoint hex_digits (acc : Z) (s : string) : option Z :=
  match s with
  | EmptyString => Some acc
  | String c r =>
      match hex_digit c with
      | Some d => hex_digits (16 * acc + d) r
      | None => None
      end
  end.

Definition int16 (s : string) : result Z :=
  let t := strip s in
  let '(neg, t1) :=
    match t with
    | String "-" r => (true, r)
    | String "+" r => (false, r)
    | _ => (false, t)
    end in
  let t2 :=
    match t1 with
    | String "0" (String "x" r) => r
    | String "0" (String "X" r) => r
    | _ => t1
    end in
  match t2 with
  | EmptyString => Raise ValueError
  | _ => match hex_digits 0 t2 with
         | Some v => Ok (if neg then - v else v)
         | None => Raise ValueError
         end
  end.

End Py.
Export Py.

(* ===================================================================== *)
(** ** [getopt.getopt(args, shortopts)] *)
(* ===================================================================== *)

(** Both scripts call [getopt.getopt] of the Python 2 standard library with
    a short option string only, so [longopts] is the empty list and every
    argument of the form [--name] is rejected as unrecognised. *)

Module Getopt.

Definition opts := list (string * string).

(** [short_has_arg(opt, shortopts)]: scan [shortopts] for the option
    letter (which is never [':']); an argument is taken when the next
    character is [':']. *)
Fixpoint short_has_arg (opt : ascii) (shortopts : string) : result bool :=
  match shortopts with
  | EmptyString => Raise GetoptError
  | String c r =>
      if Ascii.eqb opt c && negb (Ascii.eqb c ":")
      then Ok (String.prefix ":" r)
      else short_has_arg opt r
  end.

(** ['-' + opt]. *)
Definition dash (opt : ascii) : string := String "-" (String opt "").

(** [do_shorts(opts, optstring, shortopts, args)].  [next] is [args[0]]
    when there is one; the flag returned with the options tells whether
    that argument was consumed as an option argument. *)
Fixpoint do_shorts (acc : opts) (optstring shortopts : string)
         (next : option string) : result (opts * bool) :=
  match optstring with
  | EmptyString => Ok (acc, false)
  | String opt rest =>
      match short_has_arg opt shortopts with
      | Raise e => Raise e
      | Ok true =>
          match rest with
          | EmptyString =>
              match next with
              | None => Raise GetoptError
              | Some a => Ok ((acc ++ [(dash opt, a)])%list, true)
              end
          | _ => Ok ((acc ++ [(dash opt, rest)])%list, false)
          end
      | Ok false =>
          do_shorts (acc ++ [(dash opt, "")])%list rest shortopts next
      end
  end.

(** The [while] loop of [getopt]. *)
Fixpoint getopt_loop (acc : opts) (shortopts : string) (args : list string)
  : result (opts * list string) :=
  match args with
  | [] => Ok (acc, [])
  | a :: rest =>
      if negb (String.prefix "-" a) || (a =? "-")%string then Ok (acc, args)
      else if (a =? "--")%string then Ok (acc, rest)
      else if String.prefix "--" a then Raise GetoptError
      else
        match do_shorts acc (String.substring 1 (String.length a - 1) a)
                        shortopts (List.hd_error rest) with
        | Raise e => Raise e
        | Ok (acc', false) => getopt_loop acc' shortopts rest
        | Ok (acc', true) =>
            match rest with
            | [] => Ok (acc', [])
            | _ :: rest' => getopt_loop acc' shortopts rest'
            end
        end
  end.

Definition getopt (args : list string) (shortopts : string)
  : result (opts * list string) :=
  getopt_loop [] shortopts args.

End Getopt.

(* ===================================================================== *)
(** ** Collaborators and the effect monad *)
(* ===================================================================== *)

(** A loaded module as the debugger exposes it: [.name], [.getPath()],
    [.getBaseAddress()], [.getSize()]. *)
Record module : Type := mkModule {
  name : string;
  getPath : string;
  getBaseAddress : Z;
  getSize : Z
}.

(** One entry of [pe.sections]. *)
Record section : Type := mkSection {
  Name : string;
  VirtualAddress : Z;
  Misc_VirtualSize : Z
}.

(** What the scripts read of a parsed [pefile.PE] object. *)
Record pe_file : Type := mkPE {
  sections : list section;
  SectionAlignment : Z
}.

(** A Yara match record: [match.rule] and [match.strings]. *)
Record yara_match : Type := mkMatch {
  rule : string;
  strings : list pyval
}.

(** The host side: the debuggee's modules and memory and the three
    libraries.  Only [PE] and [yara.compile] are taken to fail. *)
Record Host : Type := mkHost {
  rules : Type;
  host_getModule : string -> option module;
  host_readMemory : Z -> Z -> bytes;
  host_PE : string -> result pe_file;
  host_md5 : bytes -> string;
  host_compile : string -> result rules;
  host_match : rules -> bytes -> list yara_match
}.

(** A call made on a collaborator. *)
Inductive event : Type :=
| Log (msg : string)
| GetModule (module_name : string)
| ReadMemory (address size : Z)
| CreateTable (title : string) (columns : list string)
| TableAdd (address : Z) (row : list pyval)
| OpenPE (path : string)
| Md5 (data : bytes)
| YaraCompile (filepath : string)
| YaraMatch (data : bytes).

Definition trace := list event.

(** A computation: the calls made so far, and how it ended. *)
Definition M (A : Type) : Type := (trace * result A)%type.

Definition ret {A : Type} (a : A) : M A := ([], Ok a).

Definition raise {A : Type} (e : exn) : M A := ([], Raise e).

Definition bind {A B : Type} (m : M A) (k : A -> M B) : M B :=
  match m with
  | (t, Ok a) => let '(t', r) := k a in ((t ++ t')%list, r)
  | (t, Raise e) => (t, Raise e)
  end.

Definition call (e : event) : M unit := ([e], Ok tt).

Definition lift {A : Type} (r : result A) : M A := ([], r).

(** [try: x = m / except <classes>: handler], followed by the rest [k] of
    the function body.  Every handler in the two scripts ends in [return],
    so a caught exception ends the function with the handler's outcome; an
    exception of another class escapes. *)
Definition try_except {A B : Type} (m : M A) (classes : list exn)
           (handler : M B) (k : A -> M B) : M B :=
  match m with
  | (t, Ok a) => let '(t', r) := k a in ((t ++ t')%list, r)
  | (t, Raise e) =>
      if existsb (exn_eqb e) classes
      then let '(t', r) := handler in ((t ++ t')%list, r)
      else (t, Raise e)
  end.

Declare Scope py_scope.
Delimit Scope py_scope with py.
Notation "x <- m ;; k" := (bind m (fun x => k))
  (at level 61, m at next level, right associativity) : py_scope.
Notation "m ;; k" := (bind m (fun _ => k))
  (at level 61, right associativity) : py_scope.
#[local] Open Scope py_scope.

(** Projections of a trace onto one kind of call. *)
Definition reads (t : trace) : list (Z * Z) :=
  flat_map (fun e => match e with ReadMemory a n => [(a, n)] | _ => [] end) t.

Definition lookups (t : trace) : list string :=
  flat_map (fun e => match e with GetModule n => [n] | _ => [] end) t.

Definition hashed (t : trace) : list bytes :=
  flat_map (fun e => match e with Md5 d => [d] | _ => [] end) t.

Definition matched (t : trace) : list bytes :=
  flat_map (fun e => match e with YaraMatch d => [d] | _ => [] end) t.

Definition compiled (t : trace) : list string :=
  flat_map (fun e => match e with YaraCompile f => [f] | _ => [] end) t.

Definition table_rows (t : trace) : list (Z * list pyval) :=
  flat_map (fun e => match e with TableAdd a r => [(a, r)] | _ => [] end) t.

Definition is_Log (e : event) : bool :=
  match e with Log _ => true | _ => false end.

(** The debugger object [imm], over a host. *)
Section Debugger.
Context (h : Host).

Definition imm_log (msg : string) : M unit := call (Log msg).

Definition imm_getModule (n : string) : M (option module) :=
  call (GetModule n) ;; ret (host_getModule h n).

Definition imm_readMemory (address size : Z) : M bytes :=
  call (ReadMemory address size) ;; ret (host_readMemory h address size).

Definition PE (path : string) : M pe_file :=
  call (OpenPE path) ;; lift (host_PE h path).

Definition md5_hexdigest (data : bytes) : M string :=
  call (Md5 data) ;; ret (host_md5 h data).

Definition yara_compile (filepath : string) : M (rules h) :=
  call (YaraCompile filepath) ;; lift (host_compile h filepath).

Definition rules_match (r : rules h) (data : bytes) : M (list yara_match) :=
  call (YaraMatch data) ;; ret (host_match h r data).

End Debugger.

(* ===================================================================== *)
(** ** PyCommands/memhash.py *)
(* ===================================================================== *)

Module memhash.

Definition NAME : string := "memhash".

Definition usage : M unit :=
  imm_log " " ;;
  imm_log ("!" ++ NAME ++ " [-m module] start-address end-address") ;;
  imm_log "    -h            : Display this message" ;;
  imm_log "    -m module     : Module name" ;;
  imm_log "    start-address : Start address" ;;
  imm_log "    end-address   : End address" ;;
  imm_log ("ex: !" ++ NAME ++ " 40000000 80000000") ;;
  imm_log ("ex: !" ++ NAME ++ " -m kernel32") ;;
  imm_log " ".

Section WithHost.
Context (h : Host).

(** The body of [for section in pe.sections]. *)
Definition hash_section (m : module) (pe : pe_file) (s : section)
  : M unit :=
  section_name <- lift (getitem (split zero (Name s)) 0) ;;
  let start := getBaseAddress m + VirtualAddress s in
  let virtual_size := Misc_VirtualSize s in
  let alignment := SectionAlignment pe in
  r <- lift (mod_ virtual_size alignment) ;;
  let size := virtual_size + (alignment - r) in
  data <- imm_readMemory h start size ;;
  md5sum <- md5_hexdigest h data ;;
  imm_log (name m ++ " " ++ section_name ++ " MD5: " ++ md5sum).

Fixpoint hash_sections (m : module) (pe : pe_file) (ss : list section)
  : M unit :=
  match ss with
  | [] => ret tt
  | s :: ss' => hash_section m pe s ;; hash_sections m pe ss'
  end.

Definition hash_module (module_name : string) : M string :=
  ext <- lift (getitem (split "." module_name) (-1)) ;;
  let module_name :=
    if negb (str_in ext ["exe"; "sys"; "dll"])
    then module_name ++ ".dll" else module_name in
  module <- imm_getModule h module_name ;;
  match module with
  | None => ret (module_name ++ " is not a loaded module")
  | Some m =>
      pe <- PE h (getPath m) ;;
      hash_sections m pe (sections pe) ;;
      ret ("Calculated hash for " ++ name m)
  end.

Definition hash_address_range (start_addr end_addr : string) : M string :=
  try_except (lift (int16 start_addr)) [ValueError]
    (usage ;; ret ("Invalid start address (0x" ++ start_addr ++ ")"))
  (fun start =>
  try_except (lift (int16 end_addr)) [ValueError]
    (usage ;; ret ("Invalid end address (0x" ++ end_addr ++ ")"))
  (fun end_ =>
  let start_addr := Some start in
  let end_addr := Some end_ in
  if is_None start_addr || is_None end_addr then
    usage ;; ret "Start and end addresses must be specified"
  else if start >=? end_ then
    usage ;; ret "End address must be greater than start address"
  else
    data <- imm_readMemory h start (end_ - start) ;;
    md5sum <- md5_hexdigest h data ;;
    imm_log ("0x" ++ fmt_08x start ++ " - 0x" ++ fmt_08x end_
                  ++ " MD5: " ++ md5sum) ;;
    ret ("Calculated hash for 0x" ++ fmt_08x start
           ++ " - 0x" ++ fmt_08x end_))).

(** The [for opt, arg in opts] loop of [main]: [inl s] when the loop
    ends the function with [return s], otherwise the final value of
    [module]. *)
Fixpoint scan_opts (opts : Getopt.opts) (module : option string)
  : M (string + option string) :=
  match opts with
  | [] => ret (inr module)
  | (opt, arg) :: opts' =>
      if (opt =? "-h")%string then usage ;; ret (inl "")
      else if (opt =? "-m")%string then scan_opts opts' (Some arg)
      else scan_opts opts' module
  end.

Definition main (args : list string) : M string :=
  try_except (lift (Getopt.getopt args "hm:")) [GetoptError]
    (usage ;; ret "Incorrect arguments (check log window)")
  (fun '(opts, args) =>
  r <- scan_opts opts None ;;
  match r with
  | inl s => ret s
  | inr module =>
      let otherwise :=
        if (List.length args =? 2)%nat then
          a0 <- lift (getitem args 0) ;;
          a1 <- lift (getitem args 1) ;;
          hash_address_range a0 a1
        else usage ;; ret "Incorrect arguments (check log window)" in
      match module with
      | Some m => if truthy m then hash_module m else otherwise
      | None => otherwise
      end
  end).

End WithHost.
End memhash.

(* ===================================================================== *)
(** ** PyCommands/memyara.py *)
(* ===================================================================== *)

Module memyara.

Definition NAME : string := "memyara".

Definition usage : M unit :=
  imm_log " " ;;
  imm_log ("!" ++ NAME
               ++ " [-m module] -r /path/to/rules start-address end-address") ;;
  imm_log "    -h                : Display this message" ;;
  imm_log "    -m module         : Module name" ;;
  imm_log "    -r /path/to/rules : Path to Yara rules file" ;;
  imm_log "    start-address     : Start address" ;;
  imm_log "    end-address       : End address" ;;
  imm_log ("ex: !" ++ NAME ++ " -r /path/to/rules 40000000 80000000") ;;
  imm_log ("ex: !" ++ NAME ++ " -m kernel32 -r /path/to/rules") ;;
  imm_log " ".

(** The body of [for match in matches]: the row is built left to right,
    then added. *)
Definition display_match (m : yara_match) : M unit :=
  s0 <- lift (getitem (strings m) 0) ;;
  offset <- lift (fmt_ld s0) ;;
  s1 <- lift (getitem (strings m) 1) ;;
  s2 <- lift (getitem (strings m) 2) ;;
  call (TableAdd 0 [PStr (rule m); PStr offset; s1; s2]).

Fixpoint display_matches (matches : list yara_match) : M unit :=
  match matches with
  | [] => ret tt
  | m :: ms => display_match m ;; display_matches ms
  end.

Definition _display_results (matches : list yara_match) : M unit :=
  call (CreateTable "Yara matches"
                    ["Rule"; "Offset"; "Identifier"; "Offset"]) ;;
  display_matches matches.

Section WithHost.
Context (h : Host).

Definition run_yara_on_module (module_name : string) (rules : rules h)
  : M string :=
  ext <- lift (getitem (split "." module_name) (-1)) ;;
  let module_name :=
    if negb (str_in ext ["exe"; "sys"; "dll"])
    then module_name ++ ".dll" else module_name in
  module <- imm_getModule h module_name ;;
  match module with
  | None => ret (module_name ++ " is not a loaded module")
  | Some m =>
      data <- imm_readMemory h (getBaseAddress m) (getSize m) ;;
      matches <- rules_match h rules data ;;
      _display_results matches ;;
      ret (fmt_d (Z.of_nat (List.length matches)) ++ " matches")
  end.

Definition run_yara_on_address_range (start_addr end_addr : string)
           (rules : rules h) : M string :=
  try_except (lift (int16 start_addr)) [ValueError]
    (usage ;; ret ("Invalid start address (0x" ++ start_addr ++ ")"))
  (fun start =>
  try_except (lift (int16 end_addr)) [ValueError]
    (usage ;; ret ("Invalid end address (0x" ++ end_addr ++ ")"))
  (fun end_ =>
  let start_addr := Some start in
  let end_addr := Some end_ in
  if is_None start_addr || is_None end_addr then
    usage ;; ret "Start and end addresses must be specified"
  else if start >=? end_ then
    usage ;; ret "End address must be greater than start address"
  else
    data <- imm_readMemory h start (end_ - start) ;;
    matches <- rules_match h rules data ;;
    _display_results matches ;;
    ret (fmt_d (Z.of_nat (List.length matches)) ++ " matches"))).

(** State of [main]'s option loop: [module] and [rules_file]. *)
Fixpoint scan_opts (opts : Getopt.opts) (module rules_file : option string)
  : M (string + option string * option string) :=
  match opts with
  | [] => ret (inr (module, rules_file))
  | (opt, arg) :: opts' =>
      if (opt =? "-h")%string then usage ;; ret (inl "")
      else if (opt =? "-m")%string then scan_opts opts' (Some arg) rules_file
      else if (opt =? "-r")%string then scan_opts opts' module (Some arg)
      else scan_opts opts' module rules_file
  end.

Definition main (args : list string) : M string :=
  try_except (lift (Getopt.getopt args "hm:r:")) [GetoptError]
    (usage ;; ret "Incorrect arguments (check log window)")
  (fun '(opts, args) =>
  r <- scan_opts opts None None ;;
  match r with
  | inl s => ret s
  | inr (module, rules_file) =>
      match rules_file with
      | Some rules_file =>
          if negb (truthy rules_file) then
            usage ;;
            ret "Incorrect arguments (Path to Yara rule file required)"
          else
            try_except (yara_compile h rules_file)
              [YaraSyntaxError; YaraError]
              (ret (rules_file ++ " is an invalid Yara rules file"))
            (fun rules =>
            let otherwise :=
              if (List.length args =? 2)%nat then
                a0 <- lift (getitem args 0) ;;
                a1 <- lift (getitem args 1) ;;
                run_yara_on_address_range a0 a1 rules
              else usage ;; ret "Incorrect arguments (check log window)" in
            match module with
            | Some m => if truthy m then run_yara_on_module m rules
                        else otherwise
            | None => otherwise
            end)
      | None =>
          usage ;;
          ret "Incorrect arguments (Path to Yara rule file required)"
      end
  end).

End WithHost.
End memyara.

(* ===================================================================== *)
(** ** Reading the model: parsed options, extensions, table rows *)
(* ===================================================================== *)

(** The name the scripts hand to [imm.getModule], written from the
    extension of the name: the text after its last ['.'], which for a name
    without any ['.'] is the whole name. *)
Fixpoint has_dot (s : string) : bool :=
  match s with
  | EmptyString => false
  | String c r => Ascii.eqb c "." || has_dot r
  end.

Fixpoint extension (s : string) : string :=
  match s with
  | EmptyString => ""
  | String c r =>
      if Ascii.eqb c "." || has_dot r then extension r else s
  end.

Definition recognized (ext : string) : bool :=
  str_in ext ["exe"; "sys"; "dll"].

Definition lookup_name (module_name : string) : string :=
  if recognized (extension module_name) then module_name
  else module_name ++ ".dll".

(** Whether option [o] was parsed, and the argument of its last
    occurrence. *)
Definition given (o : string) (opts : Getopt.opts) : bool :=
  existsb (fun p => (fst p =? o)%string) opts.

Fixpoint last_value (o : string) (opts : Getopt.opts) (d : option string)
  : option string :=
  match opts with
  | [] => d
  | (opt, arg) :: opts' =>
      last_value o opts' (if (opt =? o)%string then Some arg else d)
  end.

(** A match record the table can show: three string fields at least, the
    first of them a number for ['%ld']. *)
Definition displayable (m : yara_match) : bool :=
  match strings m with
  | s0 :: _ :: _ :: _ =>
      match fmt_ld s0 with Ok _ => true | Raise _ => false end
  | _ => false
  end.

(** The table row that reports a match. *)
Definition row_of (m : yara_match) : list pyval :=
  [PStr (rule m);
   PStr (match fmt_ld (nth 0 (strings m) (PStr "")) with
         | Ok s => s
         | Raise _ => ""
         end);
   nth 1 (strings m) (PStr "");
   nth 2 (strings m) (PStr "")].

(** [_display_results] only calls [createTable] and [table.add], and
    every [add] has first argument 0. *)
Definition is_table_call (e : event) : bool :=
  match e with
  | CreateTable _ _ => true
  | TableAdd a _ => a =? 0
  | _ => false
  end.

(** The part of a string before the first occurrence of a character (the
    whole string when the character does not occur), and whether a
    character occurs. *)
Fixpoint before (c : ascii) (s : string) : string :=
  match s with
  | EmptyString => ""
  | String a r => if Ascii.eqb a c then "" else String a (before c r)
  end.

Fixpoint occurs (c : ascii) (s : string) : bool :=
  match s with
  | EmptyString => false
  | String a r => Ascii.eqb a c || occurs c r
  end.

(** The calls [hash_module] makes for one section: the read, the hash of
    the bytes read, the log line. *)
Definition section_calls (h : Host) (m : module) (pe : pe_file) (s : section)
  : trace :=
  let start := getBaseAddress m + VirtualAddress s in
  let size :=
    Misc_VirtualSize s
    + (SectionAlignment pe - Misc_VirtualSize s mod SectionAlignment pe) in
  let data := host_readMemory h start size in
  [ReadMemory start size; Md5 data;
   Log (name m ++ " " ++ before zero (Name s) ++ " MD5: " ++ host_md5 h data)].

(** Sample hosts used to run the scripts on concrete inputs. *)
Module Sample.

Definition kernel32 : module :=
  mkModule "kernel32.dll" "C:\WINDOWS\system32\kernel32.dll" 4096 100.

Definition a_match : yara_match :=
  mkMatch "r1" [PInt 5; PStr "$a"; PStr "abc"].

Definition short_match : yara_match :=
  mkMatch "r2" [PInt 7; PStr "$b"].

(** One loaded module with two sections; every rules file compiles. *)
Definition host : Host :=
  mkHost unit
    (fun n => if (n =? "kernel32.dll")%string then Some kernel32 else None)
    (fun _ n => repeat Byte.x00 (Z.to_nat n))
    (fun _ => Ok (mkPE [mkSection ".text" 16 30; mkSection ".data" 64 32] 16))
    (fun _ => "d41d8cd98f00b204e9800998ecf8427e")
    (fun _ => Ok tt)
    (fun _ _ => [a_match; a_match]).

(** The module's file on disk is not a PE file [pefile] can parse. *)
Definition host_bad_pe : Host :=
  mkHost unit (host_getModule host) (host_readMemory host)
    (fun _ => Raise PEFormatError)
    (host_md5 host) (host_compile host) (host_match host).

(** No rules file compiles. *)
Definition host_bad_rules : Host :=
  mkHost unit (host_getModule host) (host_readMemory host) (host_PE host)
    (host_md5 host) (fun _ => Raise YaraSyntaxError) (host_match host).

(** A rule matched with a record that has two string fields only. *)
Definition host_short_match : Host :=
  mkHost unit (host_getModule host) (host_readMemory host) (host_PE host)
    (host_md5 host) (host_compile host)
    (fun _ _ => [a_match; short_match]).

End Sample.

(* ===================================================================== *)
(** ** The model on concrete inputs *)
(* ===================================================================== *)

Example split_module_name :
  split "." "kernel32.dll" = ["kernel32"; "dll"]
  /\ split "." "kernel32" = ["kernel32"]
  /\ split "." "a..b." = ["a"; ""; "b"; ""].
Proof. repeat split. Qed.

Example int16_samples :
  int16 "40000000" = Ok 1073741824 /\ int16 " -0x1F " = Ok (-31)
  /\ int16 "0x" = Raise ValueError /\ int16 "4g" = Raise ValueError
  /\ int16 "" = Raise ValueError.
Proof. repeat split. Qed.

Example fmt_samples :
  fmt_08x 255 = "000000ff" /\ fmt_08x (-5) = "-0000005"
  /\ fmt_08x 4886718345 = "123456789" /\ fmt_d 0 = "0" /\ fmt_d (-12) = "-12"
  /\ fmt_ld (PTuple [PInt 3; PStr "$a"; PStr "x"]) = Raise TypeError.
Proof. repeat split. Qed.

Example getopt_samples :
  Getopt.getopt ["-m"; "kernel32"; "-r"; "x.yar"] "hm:r:"
  = Ok ([("-m", "kernel32"); ("-r", "x.yar")], [])
  /\ Getopt.getopt ["-hmfoo"; "a"; "-h"] "hm:"
     = Ok ([("-h", ""); ("-m", "foo")], ["a"; "-h"])
  /\ Getopt.getopt ["--"; "-r"] "hm:" = Ok ([], ["-r"])
  /\ Getopt.getopt ["-m"] "hm:" = Raise GetoptError
  /\ Getopt.getopt ["--help"] "hm:" = Raise GetoptError.
Proof. repeat split. Qed.

Example memhash_range_run :
  memhash.main Sample.host ["10"; "12"]
  = ([ReadMemory 16 2; Md5 [Byte.x00; Byte.x00];
      Log "0x00000010 - 0x00000012 MD5: d41d8cd98f00b204e9800998ecf8427e"],
     Ok "Calculated hash for 0x00000010 - 0x00000012").
Proof. reflexivity. Qed.

Example memyara_range_run :
  memyara.main Sample.host ["-r"; "x.yar"; "10"; "12"]
  = ([YaraCompile "x.yar"; ReadMemory 16 2; YaraMatch [Byte.x00; Byte.x00];
      CreateTable "Yara matches" ["Rule"; "Offset"; "Identifier"; "Offset"];
      TableAdd 0 [PStr "r1"; PStr "5"; PStr "$a"; PStr "abc"];
      TableAdd 0 [PStr "r1"; PStr "5"; PStr "$a"; PStr "abc"]],
     Ok "2 matches").
Proof. reflexivity. Qed.

(** A name without any ['.'] is its own extension: a module called [dll]
    is looked up as it is. *)
Example lookup_name_samples :
  lookup_name "kernel32" = "kernel32.dll"
  /\ lookup_name "ntoskrnl.exe" = "ntoskrnl.exe"
  /\ lookup_name "a.b" = "a.b.dll" /\ lookup_name "dll" = "dll".
Proof. repeat split. Qed.

(* ===================================================================== *)
(** ** Laws of the effect monad and of the builtins *)
(* ===================================================================== *)

Section MonadLaws.
Context {A B : Type}.

Lemma bind_run (m : M A) (k : A -> M B) :
  bind m k =
  match snd m with
  | Ok a => ((fst m ++ fst (k a))%list, snd (k a))
  | Raise e => (fst m, Raise e)
  end.
Proof.
  destruct m as [t [a | e]]; simpl; [destruct (k a) |]; reflexivity.
Qed.

Lemma bind_Ok (m : M A) (k : A -> M B) t a :
  m = (t, Ok a) -> bind m k = ((t ++ fst (k a))%list, snd (k a)).
Proof. intros ->. rewrite bind_run. reflexivity. Qed.

Lemma bind_lift_Ok (a : A) (k : A -> M B) : bind (lift (Ok a)) k = k a.
Proof. unfold bind, lift. destruct (k a). reflexivity. Qed.

Lemma try_except_Ok (a : A) cls (hd : M B) (k : A -> M B) :
  try_except (lift (Ok a)) cls hd k = k a.
Proof. unfold try_except, lift. destruct (k a). reflexivity. Qed.

End MonadLaws.

(** [usage] only writes to the log window. *)
Lemma usage_memhash_logs : forallb is_Log (fst memhash.usage) = true.
Proof. reflexivity. Qed.

Lemma usage_memyara_logs : forallb is_Log (fst memyara.usage) = true.
Proof. reflexivity. Qed.

(** [split] never returns the empty list, so [[0]] and [[-1]] on its result
    are defined. *)
Lemma split_cons sep s : exists w ws, split sep s = w :: ws.
Proof.
  induction s as [| c r [w [ws IH]]]; simpl.
  - eauto.
  - destruct (Ascii.eqb c sep); [eauto |]. rewrite IH. eauto.
Qed.

Lemma getitem_first {A : Type} (a : A) l : getitem (a :: l) 0 = Ok a.
Proof.
  unfold getitem.
  replace (0 <? 0) with false by reflexivity.
  replace (0 <? 0) with false by reflexivity.
  cbn [orb].
  destruct (Z.leb_spec (Z.of_nat (List.length (a :: l))) 0) as [H | H].
  - simpl List.length in H. lia.
  - reflexivity.
Qed.

Lemma getitem_last_index {A : Type} (a : A) l :
  getitem (a :: l) (-1) =
  match nth_error (a :: l) (List.length l) with
  | Some x => Ok x
  | None => Raise IndexError
  end.
Proof.
  unfold getitem.
  replace (-1 <? 0) with true by reflexivity.
  set (n := Z.of_nat (List.length (a :: l))).
  assert (Hn : n = 1 + Z.of_nat (List.length l))
    by (unfold n; simpl List.length; lia).
  destruct (Z.ltb_spec (-1 + n) 0); [lia |].
  destruct (Z.leb_spec n (-1 + n)); [lia |].
  cbn [orb].
  replace (Z.to_nat (-1 + n)) with (List.length l) by lia.
  reflexivity.
Qed.

Lemma getitem_last_cons {A : Type} (a b : A) l :
  getitem (a :: b :: l) (-1) = getitem (b :: l) (-1).
Proof. rewrite !getitem_last_index. reflexivity. Qed.

(** [name.split('.')[-1]] is the extension of [name]. *)
Lemma split_no_dot s : has_dot s = false -> split "." s = [s].
Proof.
  induction s as [| c r IH]; simpl; [reflexivity |].
  intros H. apply orb_false_iff in H as [Hc Hr].
  rewrite Hc, (IH Hr). reflexivity.
Qed.

Lemma split_dot s :
  has_dot s = true -> exists w x ws, split "." s = w :: x :: ws.
Proof.
  induction s as [| c r IH]; simpl; [discriminate |].
  destruct (Ascii.eqb c ".") eqn:Hc; simpl.
  - intros _. destruct (split_cons "." r) as [w [ws ->]]. eauto.
  - intros Hr. destruct (IH Hr) as [w [x [ws ->]]]. eauto.
Qed.

Lemma split_extension s : getitem (split "." s) (-1) = Ok (extension s).
Proof.
  induction s as [| c r IH]; [reflexivity |].
  simpl. destruct (Ascii.eqb c ".") eqn:Hc; simpl.
  - destruct (split_cons "." r) as [w [ws Hs]].
    rewrite Hs in *. rewrite getitem_last_cons. exact IH.
  - destruct (has_dot r) eqn:Hr.
    + destruct (split_dot r Hr) as [w [x [ws Hs]]].
      rewrite Hs in *. rewrite getitem_last_cons in *. exact IH.
    + rewrite (split_no_dot r Hr). reflexivity.
Qed.

Lemma extension_no_dot s : has_dot s = false -> extension s = s.
Proof.
  destruct s as [| c r]; simpl; [reflexivity |].
  intros H. rewrite H. reflexivity.
Qed.

Lemma has_dot_app s t : has_dot (s ++ t) = has_dot s || has_dot t.
Proof.
  induction s as [| c r IH]; simpl; [reflexivity |].
  rewrite IH. apply orb_assoc.
Qed.

(** For [name = stem ++ "." ++ ext] with no ['.'] in [ext], the extension
    is [ext]. *)
Lemma extension_app stem ext :
  has_dot ext = false -> extension (stem ++ String "." ext) = ext.
Proof.
  intros He. induction stem as [| c r IH]; simpl.
  - apply extension_no_dot, He.
  - rewrite has_dot_app. simpl. rewrite !orb_true_r. exact IH.
Qed.

(** The name that reaches [getModule], as the source computes it. *)
Lemma suffixing_is_lookup_name s :
  (if negb (str_in (extension s) ["exe"; "sys"; "dll"])
   then s ++ ".dll" else s) = lookup_name s.
Proof.
  unfold lookup_name, recognized.
  destruct (str_in (extension s) ["exe"; "sys"; "dll"]); reflexivity.
Qed.

(** *** Which collaborators each loop touches *)

Lemma hash_section_trace h m pe s :
  fst (memhash.hash_section h m pe s) = [] \/
  exists d md,
    fst (memhash.hash_section h m pe s) =
    [ReadMemory (getBaseAddress m + VirtualAddress s)
                (Misc_VirtualSize s
                 + (SectionAlignment pe
                    - Misc_VirtualSize s mod SectionAlignment pe));
     Md5 d; Log md].
Proof.
  unfold memhash.hash_section.
  destruct (getitem (split zero (Name s)) 0) as [n | e]; [| left; reflexivity].
  rewrite bind_lift_Ok.
  unfold mod_.
  destruct (SectionAlignment pe =? 0); [left; reflexivity |].
  rewrite bind_lift_Ok. right. eexists _, _. reflexivity.
Qed.

Lemma hash_sections_lookups h m pe ss :
  lookups (fst (memhash.hash_sections h m pe ss)) = [].
Proof.
  induction ss as [| s ss IH]; [reflexivity |].
  simpl. rewrite bind_run.
  destruct (hash_section_trace h m pe s) as [Ht | [d [md Ht]]];
    destruct (snd (memhash.hash_section h m pe s)); simpl; rewrite Ht;
    unfold lookups in *; rewrite ?flat_map_app, ?IH; reflexivity.
Qed.

Lemma display_match_trace m :
  fst (memyara.display_match m) = [] \/
  exists r, fst (memyara.display_match m) = [TableAdd 0 r].
Proof.
  unfold memyara.display_match.
  destruct (getitem (strings m) 0); [rewrite bind_lift_Ok | left; reflexivity].
  destruct (fmt_ld a); [rewrite bind_lift_Ok | left; reflexivity].
  destruct (getitem (strings m) 1); [rewrite bind_lift_Ok | left; reflexivity].
  destruct (getitem (strings m) 2); [rewrite bind_lift_Ok | left; reflexivity].
  right. eexists. reflexivity.
Qed.

Lemma display_matches_table_calls ms :
  forallb is_table_call (fst (memyara.display_matches ms)) = true.
Proof.
  induction ms as [| m ms IH]; [reflexivity |].
  simpl. rewrite bind_run.
  destruct (display_match_trace m) as [Ht | [r Ht]];
    destruct (snd (memyara.display_match m)); simpl; rewrite Ht;
    rewrite ?forallb_app, ?IH; reflexivity.
Qed.

Lemma display_results_table_calls ms :
  forallb is_table_call (fst (memyara._display_results ms)) = true.
Proof.
  unfold memyara._display_results. rewrite bind_run. simpl.
  apply display_matches_table_calls.
Qed.

Lemma table_calls_only t :
  forallb is_table_call t = true ->
  lookups t = [] /\ reads t = [] /\ matched t = [] /\ hashed t = []
  /\ compiled t = [].
Proof.
  induction t as [| e t IH]; [repeat split |].
  simpl. intros H. apply andb_true_iff in H as [He Ht].
  destruct (IH Ht) as (H1 & H2 & H3 & H4 & H5).
  unfold lookups, reads, matched, hashed, compiled in *.
  destruct e; try discriminate; simpl; auto.
Qed.

(* ===================================================================== *)
(** ** Module lookup *)
(* ===================================================================== *)

Lemma hash_module_run h module_name :
  memhash.hash_module h module_name =
  match host_getModule h (lookup_name module_name) with
  | None =>
      ([GetModule (lookup_name module_name)],
       Ok (lookup_name module_name ++ " is not a loaded module"))
  | Some m =>
      match host_PE h (getPath m) with
      | Raise e =>
          ([GetModule (lookup_name module_name); OpenPE (getPath m)], Raise e)
      | Ok pe =>
          let body := memhash.hash_sections h m pe (sections pe) in
          (GetModule (lookup_name module_name) :: OpenPE (getPath m)
             :: fst body,
           match snd body with
           | Ok _ => Ok ("Calculated hash for " ++ name m)
           | Raise e => Raise e
           end)
      end
  end.
Proof.
  unfold memhash.hash_module.
  rewrite split_extension, bind_lift_Ok. cbv zeta.
  rewrite suffixing_is_lookup_name.
  unfold imm_getModule, PE. rewrite ?bind_run. simpl.
  destruct (host_getModule h (lookup_name module_name)) as [m |];
    [| reflexivity].
  rewrite ?bind_run. simpl.
  destruct (host_PE h (getPath m)) as [pe | e]; [| reflexivity].
  simpl. rewrite ?bind_run.
  destruct (snd (memhash.hash_sections h m pe (sections pe)));
    simpl; rewrite ?app_nil_r; reflexivity.
Qed.

Lemma run_yara_on_module_run h module_name (r : rules h) :
  memyara.run_yara_on_module h module_name r =
  match host_getModule h (lookup_name module_name) with
  | None =>
      ([GetModule (lookup_name module_name)],
       Ok (lookup_name module_name ++ " is not a loaded module"))
  | Some m =>
      let data := host_readMemory h (getBaseAddress m) (getSize m) in
      let matches := host_match h r data in
      let shown := memyara._display_results matches in
      (GetModule (lookup_name module_name)
         :: ReadMemory (getBaseAddress m) (getSize m)
         :: YaraMatch data :: fst shown,
       match snd shown with
       | Ok _ => Ok (fmt_d (Z.of_nat (List.length matches)) ++ " matches")
       | Raise e => Raise e
       end)
  end.
Proof.
  unfold memyara.run_yara_on_module.
  rewrite split_extension, bind_lift_Ok. cbv zeta.
  rewrite suffixing_is_lookup_name.
  unfold imm_getModule, imm_readMemory, rules_match.
  rewrite ?bind_run. simpl.
  destruct (host_getModule h (lookup_name module_name)) as [m |];
    [| reflexivity].
  rewrite ?bind_run. simpl. rewrite ?bind_run. simpl.
  destruct (snd (memyara._display_results _));
    simpl; rewrite ?app_nil_r; reflexivity.
Qed.

(** Both module functions look up one name, first of all: the name the
    suffixing leaves. *)
Lemma module_functions_lookup h (r : rules h) (module_name : string) :
  lookups (fst (memhash.hash_module h module_name))
  = [lookup_name module_name]
  /\ hd_error (fst (memhash.hash_module h module_name))
     = Some (GetModule (lookup_name module_name))
  /\ lookups (fst (memyara.run_yara_on_module h module_name r))
     = [lookup_name module_name]
  /\ hd_error (fst (memyara.run_yara_on_module h module_name r))
     = Some (GetModule (lookup_name module_name)).
Proof.
  rewrite hash_module_run, run_yara_on_module_run.
  destruct (host_getModule h (lookup_name module_name)) as [m |];
    [| repeat split].
  cbv zeta.
  set (shown := memyara._display_results _).
  assert (Hl : lookups (fst shown) = [])
    by apply table_calls_only, display_results_table_calls.
  clearbody shown.
  destruct (host_PE h (getPath m)) as [pe | e].
  - pose proof (hash_sections_lookups h m pe (sections pe)) as Hs.
    set (body := memhash.hash_sections h m pe (sections pe)) in *.
    clearbody body.
    unfold lookups in *. simpl. rewrite Hl, Hs. repeat split.
  - unfold lookups in *. simpl. rewrite Hl. repeat split.
Qed.

Lemma no_dot_has_dot s :
  ~ In "."%char (list_ascii_of_string s) -> has_dot s = false.
Proof.
  induction s as [| c r IH]; simpl; [reflexivity |].
  intros H. apply orb_false_iff. split.
  - apply Ascii.eqb_neq. intros ->. apply H. now left.
  - apply IH. intros Hin. apply H. now right.
Qed.

(** The extension of a name that ends in [ext] after its last ['.'], or
    that is [ext] itself without any ['.']. *)
Lemma extension_of_name (module_name stem ext : string) :
  ~ In "."%char (list_ascii_of_string ext) ->
  module_name = ext \/ module_name = stem ++ String "." ext ->
  extension module_name = ext.
Proof.
  intros Hd [-> | ->].
  - apply extension_no_dot, no_dot_has_dot, Hd.
  - apply extension_app, no_dot_has_dot, Hd.
Qed.

(** C2, as the code has it.  Take as the extension of a module name the
    text after its last ['.'], or the whole name when it holds no ['.'].
    When the extension is [exe], [sys] or [dll], the name [hash_module]
    and [run_yara_on_module] hand to [imm.getModule] is the name
    unchanged; when it is none of the three, it is the name with [.dll]
    appended.  The lookup is the first call either function makes and its
    only lookup. *)
Theorem module_name_default_extension h (r : rules h)
        (module_name stem ext : string) :
  ~ In "."%char (list_ascii_of_string ext) ->
  module_name = ext \/ module_name = stem ++ String "." ext ->
  (ext = "exe" \/ ext = "sys" \/ ext = "dll" ->
   lookups (fst (memhash.hash_module h module_name)) = [module_name]
   /\ hd_error (fst (memhash.hash_module h module_name))
      = Some (GetModule module_name)
   /\ lookups (fst (memyara.run_yara_on_module h module_name r))
      = [module_name]
   /\ hd_error (fst (memyara.run_yara_on_module h module_name r))
      = Some (GetModule module_name))
  /\ (ext <> "exe" -> ext <> "sys" -> ext <> "dll" ->
      lookups (fst (memhash.hash_module h module_name))
      = [module_name ++ ".dll"]
      /\ hd_error (fst (memhash.hash_module h module_name))
         = Some (GetModule (module_name ++ ".dll"))
      /\ lookups (fst (memyara.run_yara_on_module h module_name r))
         = [module_name ++ ".dll"]
      /\ hd_error (fst (memyara.run_yara_on_module h module_name r))
         = Some (GetModule (module_name ++ ".dll"))).
Proof.
  intros Hd Hn.
  pose proof (extension_of_name module_name stem ext Hd Hn) as He.
  pose proof (module_functions_lookup h r module_name) as Hl.
  unfold lookup_name, recognized in Hl. rewrite He in Hl.
  split.
  - intros Hext.
    assert (Hr : str_in ext ["exe"; "sys"; "dll"] = true)
      by (destruct Hext as [-> | [-> | ->]]; reflexivity).
    rewrite Hr in Hl. exact Hl.
  - intros H1 H2 H3.
    apply String.eqb_neq in H1, H2, H3.
    assert (Hr : str_in ext ["exe"; "sys"; "dll"] = false)
      by (cbn [str_in]; rewrite H1, H2, H3; reflexivity).
    rewrite Hr in Hl. exact Hl.
Qed.

Lemma module_name_default_extension_witness :
  (lookups (fst (memhash.hash_module Sample.host "kernel32.dll"))
   = ["kernel32.dll"]
   /\ lookups (fst (memyara.run_yara_on_module Sample.host "ntoskrnl.exe" tt))
      = ["ntoskrnl.exe"])
  /\ (lookups (fst (memhash.hash_module Sample.host "kernel32"))
      = ["kernel32.dll"]
      /\ lookups (fst (memyara.run_yara_on_module Sample.host "a.b" tt))
         = ["a.b.dll"]).
Proof.
  assert (Hno : forall s,
             has_dot s = false -> ~ In "."%char (list_ascii_of_string s)).
  { induction s as [| c t IH]; simpl; [tauto |].
    intros H [Hc | Hin]; apply orb_false_iff in H as [H1 H2].
    - subst c. discriminate.
    - exact (IH H2 Hin). }
  split; split.
  - apply (proj1 (module_name_default_extension Sample.host tt
                    "kernel32.dll" "kernel32" "dll"
                    (Hno "dll" eq_refl) (or_intror eq_refl))).
    right. right. reflexivity.
  - apply (proj1 (module_name_default_extension Sample.host tt
                    "ntoskrnl.exe" "ntoskrnl" "exe"
                    (Hno "exe" eq_refl) (or_intror eq_refl))).
    left. reflexivity.
  - apply (proj2 (module_name_default_extension Sample.host tt
                    "kernel32" "" "kernel32"
                    (Hno "kernel32" eq_refl) (or_introl eq_refl)));
      discriminate.
  - apply (proj2 (module_name_default_extension Sample.host tt
                    "a.b" "a" "b"
                    (Hno "b" eq_refl) (or_intror eq_refl)));
      discriminate.
Defined.

(** C2 as first stated does not hold.  The module name [dll] has no
    ['.'], hence no text after a last ['.'] that could be one of the three
    extensions; yet both functions look it up unchanged, not as
    [dll.dll]. *)
Lemma dotless_name_counterexample :
  ~ In "."%char (list_ascii_of_string "dll")
  /\ lookups (fst (memhash.hash_module Sample.host "dll")) = ["dll"]
  /\ lookups (fst (memyara.run_yara_on_module Sample.host "dll" tt)) = ["dll"]
  /\ lookups (fst (memhash.hash_module Sample.host "dll")) <> ["dll.dll"]
  /\ lookups (fst (memyara.run_yara_on_module Sample.host "dll" tt))
     <> ["dll.dll"].
Proof.
  split.
  - simpl. intros [H | [H | [H | []]]]; discriminate.
  - repeat split; try reflexivity; vm_compute; discriminate.
Qed.

(* ===================================================================== *)
(** ** Address ranges *)
(* ===================================================================== *)

(** [int(s, 16)] fails with [ValueError] only. *)
Lemma int16_raises s e : int16 s = Raise e -> e = ValueError.
Proof.
  unfold int16.
  destruct (match strip s with
            | String "-" r => (true, r)
            | String "+" r => (false, r)
            | _ => (false, strip s)
            end) as [neg t1].
  set (t2 := match t1 with
             | String "0" (String "x" r) => r
             | String "0" (String "X" r) => r
             | _ => t1
             end).
  destruct t2; [congruence |].
  destruct (hex_digits 0 (String a t2)); congruence.
Qed.

Lemma hash_address_range_run h start_addr end_addr :
  memhash.hash_address_range h start_addr end_addr =
  match int16 start_addr with
  | Raise _ =>
      (fst memhash.usage,
       Ok ("Invalid start address (0x" ++ start_addr ++ ")"))
  | Ok start =>
      match int16 end_addr with
      | Raise _ =>
          (fst memhash.usage,
           Ok ("Invalid end address (0x" ++ end_addr ++ ")"))
      | Ok end_ =>
          if start >=? end_ then
            (fst memhash.usage,
             Ok "End address must be greater than start address")
          else
            let data := host_readMemory h start (end_ - start) in
            ([ReadMemory start (end_ - start); Md5 data;
              Log ("0x" ++ fmt_08x start ++ " - 0x" ++ fmt_08x end_
                        ++ " MD5: " ++ host_md5 h data)],
             Ok ("Calculated hash for 0x" ++ fmt_08x start
                   ++ " - 0x" ++ fmt_08x end_))
      end
  end.
Proof.
  unfold memhash.hash_address_range.
  destruct (int16 start_addr) as [start | e1] eqn:E1.
  - rewrite try_except_Ok.
    destruct (int16 end_addr) as [end_ | e2] eqn:E2.
    + rewrite try_except_Ok. cbv zeta. cbn [is_None orb].
      destruct (start >=? end_); reflexivity.
    + rewrite (int16_raises _ _ E2). reflexivity.
  - rewrite (int16_raises _ _ E1). reflexivity.
Qed.

Lemma run_yara_on_address_range_run h start_addr end_addr (r : rules h) :
  memyara.run_yara_on_address_range h start_addr end_addr r =
  match int16 start_addr with
  | Raise _ =>
      (fst memyara.usage,
       Ok ("Invalid start address (0x" ++ start_addr ++ ")"))
  | Ok start =>
      match int16 end_addr with
      | Raise _ =>
          (fst memyara.usage,
           Ok ("Invalid end address (0x" ++ end_addr ++ ")"))
      | Ok end_ =>
          if start >=? end_ then
            (fst memyara.usage,
             Ok "End address must be greater than start address")
          else
            let data := host_readMemory h start (end_ - start) in
            let matches := host_match h r data in
            let shown := memyara._display_results matches in
            (ReadMemory start (end_ - start) :: YaraMatch data :: fst shown,
             match snd shown with
             | Ok _ =>
                 Ok (fmt_d (Z.of_nat (List.length matches)) ++ " matches")
             | Raise e => Raise e
             end)
      end
  end.
Proof.
  unfold memyara.run_yara_on_address_range.
  destruct (int16 start_addr) as [start | e1] eqn:E1.
  - rewrite try_except_Ok.
    destruct (int16 end_addr) as [end_ | e2] eqn:E2.
    + rewrite try_except_Ok. cbv zeta. cbn [is_None orb].
      destruct (start >=? end_); [reflexivity |].
      unfold imm_readMemory, rules_match.
      rewrite ?bind_run. simpl. rewrite ?bind_run. simpl.
      destruct (snd (memyara._display_results _));
        simpl; rewrite ?app_nil_r; reflexivity.
    + rewrite (int16_raises _ _ E2). reflexivity.
  - rewrite (int16_raises _ _ E1). reflexivity.
Qed.

(** C3.  When both addresses parse and start >= end, the two address-range
    functions return ['End address must be greater than start address'];
    the only calls they make are the [imm.log] calls of [usage], so there
    is no memory read, no hashing and no Yara matching. *)
Theorem end_not_after_start_rejected h (r : rules h)
        (start_addr end_addr : string) (start end_ : Z) :
  int16 start_addr = Ok start ->
  int16 end_addr = Ok end_ ->
  start >= end_ ->
  memhash.hash_address_range h start_addr end_addr
  = (fst memhash.usage, Ok "End address must be greater than start address")
  /\ memyara.run_yara_on_address_range h start_addr end_addr r
     = (fst memyara.usage,
        Ok "End address must be greater than start address")
  /\ forallb is_Log (fst memhash.usage) = true
  /\ forallb is_Log (fst memyara.usage) = true
  /\ reads (fst (memhash.hash_address_range h start_addr end_addr)) = []
  /\ hashed (fst (memhash.hash_address_range h start_addr end_addr)) = []
  /\ reads (fst (memyara.run_yara_on_address_range h start_addr end_addr r))
     = []
  /\ matched (fst (memyara.run_yara_on_address_range h start_addr end_addr r))
     = [].
Proof.
  intros Hs He Hge.
  rewrite hash_address_range_run, run_yara_on_address_range_run, Hs, He.
  assert (Hb : (start >=? end_) = true) by (apply Z.geb_le; lia).
  rewrite Hb. repeat split.
Qed.

Lemma end_not_after_start_rejected_witness :
  memhash.hash_address_range Sample.host "80000000" "40000000"
  = (fst memhash.usage, Ok "End address must be greater than start address").
Proof.
  apply (end_not_after_start_rejected Sample.host tt "80000000" "40000000"
           2147483648 1073741824);
    [reflexivity | reflexivity | lia].
Defined.

(** C4.  When both addresses parse and start < end, each address-range
    function makes exactly one [imm.readMemory] call, for [end - start]
    bytes at [start], and the buffer it returns is the one buffer hashed,
    respectively matched. *)
Theorem range_read_once h (r : rules h)
        (start_addr end_addr : string) (start end_ : Z) :
  int16 start_addr = Ok start ->
  int16 end_addr = Ok end_ ->
  start < end_ ->
  reads (fst (memhash.hash_address_range h start_addr end_addr))
  = [(start, end_ - start)]
  /\ hashed (fst (memhash.hash_address_range h start_addr end_addr))
     = [host_readMemory h start (end_ - start)]
  /\ reads (fst (memyara.run_yara_on_address_range h start_addr end_addr r))
     = [(start, end_ - start)]
  /\ matched (fst (memyara.run_yara_on_address_range h start_addr end_addr r))
     = [host_readMemory h start (end_ - start)].
Proof.
  intros Hs He Hlt.
  rewrite hash_address_range_run, run_yara_on_address_range_run, Hs, He.
  assert (Hb : (start >=? end_) = false).
  { destruct (start >=? end_) eqn:E; [apply Z.geb_le in E; lia | reflexivity]. }
  rewrite Hb. cbv zeta.
  set (shown := memyara._display_results _).
  destruct (table_calls_only _ (display_results_table_calls
              (host_match h r (host_readMemory h start (end_ - start)))))
    as (_ & Hr & Hm & _).
  fold shown in Hr, Hm. clearbody shown.
  unfold reads, matched in *. simpl. rewrite Hr, Hm. repeat split.
Qed.

Lemma range_read_once_witness :
  reads (fst (memhash.hash_address_range Sample.host "40000000" "40000010"))
  = [(1073741824, 16)].
Proof.
  apply (range_read_once Sample.host tt "40000000" "40000010"
           1073741824 1073741840);
    [reflexivity | reflexivity | lia].
Defined.

(** ['%d' % n] starts with a digit or a minus sign. *)
Lemma fmt_d_head z :
  exists c r, fmt_d z = String c r /\ c <> "S"%char /\ c <> "I"%char.
Proof.
  unfold fmt_d, DecimalString.NilZero.string_of_int,
    DecimalString.NilZero.string_of_uint.
  destruct (Z.to_int z) as [d | d].
  - destruct d; simpl; eexists _, _;
      (split; [reflexivity | split; discriminate]).
  - eexists _, _. split; [reflexivity | split; discriminate].
Qed.

(** C9.  No input makes either address-range function return
    ['Start and end addresses must be specified']: the test on [None]
    follows two successful [int(., 16)] conversions, and no other exit of
    the functions produces that string. *)
Theorem must_be_specified_unreachable h (r : rules h)
        (start_addr end_addr : string) :
  snd (memhash.hash_address_range h start_addr end_addr)
  <> Ok "Start and end addresses must be specified"
  /\ snd (memyara.run_yara_on_address_range h start_addr end_addr r)
     <> Ok "Start and end addresses must be specified".
Proof.
  rewrite hash_address_range_run, run_yara_on_address_range_run.
  destruct (int16 start_addr) as [start | ?];
    [| split; simpl; discriminate].
  destruct (int16 end_addr) as [end_ | ?];
    [| split; simpl; discriminate].
  destruct (start >=? end_); [split; simpl; discriminate |].
  split; [simpl; discriminate |].
  cbv zeta. cbn [snd].
  destruct (snd (memyara._display_results _)); [| discriminate].
  destruct (fmt_d_head (Z.of_nat (List.length
              (host_match h r (host_readMemory h start (end_ - start))))))
    as (c & s & -> & Hc & _).
  simpl. intros H. injection H as H _. contradiction.
Qed.

(* ===================================================================== *)
(** ** Option handling in [main] *)
(* ===================================================================== *)

Lemma given_cons o opt arg opts :
  given o ((opt, arg) :: opts) = (opt =? o)%string || given o opts.
Proof. reflexivity. Qed.

Lemma last_value_not_given o opts d :
  given o opts = false -> last_value o opts d = d.
Proof.
  revert d. induction opts as [| [opt arg] opts IH]; intros d; [reflexivity |].
  rewrite given_cons. intros H. apply orb_false_iff in H as [Ho Hg].
  simpl. rewrite Ho. apply IH, Hg.
Qed.

(** Without [-h] the option loop of memyara makes no call and leaves in
    [module] and [rules_file] the arguments of the last [-m] and [-r]. *)
Lemma memyara_scan_opts_no_help opts module rules_file :
  given "-h" opts = false ->
  memyara.scan_opts opts module rules_file =
  ([], Ok (inr (last_value "-m" opts module,
                last_value "-r" opts rules_file))).
Proof.
  revert module rules_file.
  induction opts as [| [opt arg] opts IH]; intros module rules_file;
    [reflexivity |].
  rewrite given_cons. intros H. apply orb_false_iff in H as [Ho Hg].
  simpl. rewrite Ho.
  destruct (opt =? "-m")%string eqn:Hm.
  - apply String.eqb_eq in Hm. subst opt. simpl. apply IH, Hg.
  - destruct (opt =? "-r")%string; apply IH, Hg.
Qed.

Lemma memhash_scan_opts_no_help opts module :
  given "-h" opts = false ->
  memhash.scan_opts opts module =
  ([], Ok (inr (last_value "-m" opts module))).
Proof.
  revert module.
  induction opts as [| [opt arg] opts IH]; intros module; [reflexivity |].
  rewrite given_cons. intros H. apply orb_false_iff in H as [Ho Hg].
  simpl. rewrite Ho.
  destruct (opt =? "-m")%string; apply IH, Hg.
Qed.

(** With [-h] among the options both loops print the usage and end the
    command with the empty string. *)
Lemma memyara_scan_opts_help opts module rules_file :
  given "-h" opts = true ->
  memyara.scan_opts opts module rules_file = (fst memyara.usage, Ok (inl "")).
Proof.
  revert module rules_file.
  induction opts as [| [opt arg] opts IH]; intros module rules_file;
    [discriminate |].
  rewrite given_cons. simpl.
  destruct (opt =? "-h")%string; [reflexivity |].
  simpl. intros Hg.
  destruct (opt =? "-m")%string; [| destruct (opt =? "-r")%string];
    apply IH, Hg.
Qed.

Lemma truthy_nonempty s : s <> "" -> truthy s = true.
Proof. destruct s; [congruence | reflexivity]. Qed.

Lemma memhash_scan_opts_help opts module :
  given "-h" opts = true ->
  memhash.scan_opts opts module = (fst memhash.usage, Ok (inl "")).
Proof.
  revert module.
  induction opts as [| [opt arg] opts IH]; intros module; [discriminate |].
  rewrite given_cons. simpl.
  destruct (opt =? "-h")%string; [reflexivity |].
  simpl. intros Hg.
  destruct (opt =? "-m")%string; apply IH, Hg.
Qed.

(** [-h] anywhere among the parsed options: the usage and the empty
    string, whatever else was given. *)
Lemma help_requested h args opts1 rest1 opts2 rest2 :
  Getopt.getopt args "hm:" = Ok (opts1, rest1) ->
  Getopt.getopt args "hm:r:" = Ok (opts2, rest2) ->
  given "-h" opts1 = true ->
  given "-h" opts2 = true ->
  memhash.main h args = (fst memhash.usage, Ok "")
  /\ memyara.main h args = (fst memyara.usage, Ok "").
Proof.
  intros H1 H2 G1 G2.
  unfold memhash.main, memyara.main.
  rewrite H1, H2, !try_except_Ok.
  rewrite (memhash_scan_opts_help _ _ G1), (memyara_scan_opts_help _ _ _ G2).
  split; reflexivity.
Qed.

(** [getopt] fails with [GetoptError] only, which both [main]s catch. *)
Lemma short_has_arg_raises opt shortopts e :
  Getopt.short_has_arg opt shortopts = Raise e -> e = GetoptError.
Proof.
  induction shortopts as [| c r IH]; simpl; [congruence |].
  destruct (Ascii.eqb opt c && negb (Ascii.eqb c ":"));
    [discriminate | exact IH].
Qed.

Lemma do_shorts_raises acc optstring shortopts next e :
  Getopt.do_shorts acc optstring shortopts next = Raise e -> e = GetoptError.
Proof.
  revert acc. induction optstring as [| opt rest IH]; intros acc; simpl;
    [discriminate |].
  destruct (Getopt.short_has_arg opt shortopts) as [[|] | e'] eqn:E.
  - destruct rest; [destruct next |]; congruence.
  - apply IH.
  - intros H. injection H as <-. eapply short_has_arg_raises, E.
Qed.

Lemma getopt_raises args shortopts e :
  Getopt.getopt args shortopts = Raise e -> e = GetoptError.
Proof.
  unfold Getopt.getopt. generalize (@nil (string * string)) as acc.
  assert (H : forall n args acc,
             (List.length args <= n)%nat ->
             Getopt.getopt_loop acc shortopts args = Raise e ->
             e = GetoptError);
    [| intros acc; apply (H (List.length args)); lia].
  induction n as [| n IH]; intros [| a rest] acc Hn; simpl in *;
    try discriminate; try lia.
  destruct (negb (String.prefix "-" a) || (a =? "-")%string);
    [discriminate |].
  destruct (a =? "--")%string; [discriminate |].
  destruct (String.prefix "--" a); [congruence |].
  destruct (Getopt.do_shorts acc _ shortopts (hd_error rest))
    as [[acc' [|]] | e'] eqn:E.
  - destruct rest as [| b rest']; [discriminate |].
    apply IH. simpl in Hn. lia.
  - apply IH. lia.
  - intros H. injection H as <-. eapply do_shorts_raises, E.
Qed.

Lemma unparsable_arguments_reported h args e :
  (Getopt.getopt args "hm:" = Raise e ->
   memhash.main h args
   = (fst memhash.usage, Ok "Incorrect arguments (check log window)"))
  /\ (Getopt.getopt args "hm:r:" = Raise e ->
      memyara.main h args
      = (fst memyara.usage, Ok "Incorrect arguments (check log window)")).
Proof.
  split; intros H; pose proof (getopt_raises _ _ _ H) as ->;
    [unfold memhash.main | unfold memyara.main]; rewrite H; reflexivity.
Qed.

(** C5.  Whatever the arguments ([-m], positional addresses or neither),
    once the options parse without [-h] and name a rules file whose
    compilation fails with [YaraSyntaxError] or [YaraError], memyara's
    [main] returns ['<path> is an invalid Yara rules file'] and its one
    and only collaborator call is that [yara.compile]: no [getModule], no
    [readMemory], no [match]. *)
Theorem invalid_rules_before_target h (args : list string)
        (opts : Getopt.opts) (rest : list string) (path : string) (e : exn) :
  Getopt.getopt args "hm:r:" = Ok (opts, rest) ->
  given "-h" opts = false ->
  last_value "-r" opts None = Some path ->
  path <> "" ->
  host_compile h path = Raise e ->
  e = YaraSyntaxError \/ e = YaraError ->
  memyara.main h args
  = ([YaraCompile path], Ok (path ++ " is an invalid Yara rules file")).
Proof.
  intros Hg Hh Hr Hp Hc He.
  unfold memyara.main.
  rewrite Hg, try_except_Ok.
  rewrite (memyara_scan_opts_no_help _ _ _ Hh), Hr.
  unfold bind at 1. cbn [app].
  rewrite (truthy_nonempty _ Hp). cbn [negb].
  unfold yara_compile, call, lift, bind at 1. rewrite Hc.
  unfold try_except.
  destruct He as [-> | ->]; reflexivity.
Qed.

Lemma invalid_rules_before_target_witness :
  memyara.main Sample.host_bad_rules ["-m"; "kernel32"; "-r"; "bad.yar"]
  = ([YaraCompile "bad.yar"], Ok "bad.yar is an invalid Yara rules file").
Proof.
  apply (invalid_rules_before_target Sample.host_bad_rules
           ["-m"; "kernel32"; "-r"; "bad.yar"]
           [("-m", "kernel32"); ("-r", "bad.yar")] [] "bad.yar"
           YaraSyntaxError);
    [reflexivity | reflexivity | reflexivity | discriminate | reflexivity
    | left; reflexivity].
Defined.

(** An argument that starts with [-r] is an option [getopt] does not know
    under the option string of memhash. *)
Lemma memhash_getopt_rejects_r a rest :
  String.prefix "-r" a = true ->
  Getopt.getopt (a :: rest) "hm:" = Raise GetoptError.
Proof.
  destruct a as [| c0 [| c1 t]]; intros H; cbn [String.prefix] in H;
    try discriminate.
  - destruct (ascii_dec "-" c0); discriminate.
  - destruct (ascii_dec "-" c0) as [<- |]; [| discriminate].
    destruct (ascii_dec "r" c1) as [<- |]; [| discriminate].
    reflexivity.
Qed.

(** What the option string of memhash parses, the option string of
    memyara parses the same way, and no [-r] is among the options. *)
Lemma short_has_arg_hm c b :
  Getopt.short_has_arg c "hm:" = Ok b ->
  Getopt.short_has_arg c "hm:r:" = Ok b
  /\ (Getopt.dash c =? "-r")%string = false.
Proof.
  cbn [Getopt.short_has_arg].
  destruct (Ascii.eqb_spec c "h") as [-> | Hh]; [intros <-; split; reflexivity |].
  destruct (Ascii.eqb_spec c "m") as [-> | Hm]; [intros <-; split; reflexivity |].
  cbn [andb]. destruct (Ascii.eqb c ":"); discriminate.
Qed.

Lemma given_app o (l1 l2 : Getopt.opts) :
  given o (l1 ++ l2)%list = given o l1 || given o l2.
Proof. apply existsb_app. Qed.

Lemma do_shorts_hm acc optstring next acc' b :
  Getopt.do_shorts acc optstring "hm:" next = Ok (acc', b) ->
  Getopt.do_shorts acc optstring "hm:r:" next = Ok (acc', b)
  /\ given "-r" acc' = given "-r" acc.
Proof.
  revert acc. induction optstring as [| opt rest IH]; intros acc.
  - cbn [Getopt.do_shorts]. intros H. injection H as <- <-.
    split; reflexivity.
  - cbn [Getopt.do_shorts].
    destruct (Getopt.short_has_arg opt "hm:") as [hb | e] eqn:E;
      [| discriminate].
    destruct (short_has_arg_hm opt hb E) as [-> Hr].
    assert (Hg : forall x,
               given "-r" (acc ++ [(Getopt.dash opt, x)])%list
               = given "-r" acc).
    { intros x. rewrite given_app. cbn [given existsb fst].
      rewrite Hr. cbn [orb]. apply orb_false_r. }
    destruct hb.
    + destruct rest as [| c rest'].
      * destruct next as [a |]; [| discriminate].
        intros H. injection H as <- <-. split; [reflexivity | apply Hg].
      * intros H. injection H as <- <-. split; [reflexivity | apply Hg].
    + intros H. destruct (IH _ H) as [H1 H2].
      split; [exact H1 | rewrite H2; apply Hg].
Qed.

Lemma getopt_loop_hm args :
  forall acc opts rest,
    Getopt.getopt_loop acc "hm:" args = Ok (opts, rest) ->
    Getopt.getopt_loop acc "hm:r:" args = Ok (opts, rest)
    /\ given "-r" opts = given "-r" acc.
Proof.
  assert (H : forall n args acc opts rest,
             (List.length args <= n)%nat ->
             Getopt.getopt_loop acc "hm:" args = Ok (opts, rest) ->
             Getopt.getopt_loop acc "hm:r:" args = Ok (opts, rest)
             /\ given "-r" opts = given "-r" acc);
    [| intros acc opts rest; apply (H (List.length args)); lia].
  clear args.
  induction n as [| n IH]; intros [| a rest0] acc opts rest Hn;
    cbn [Getopt.getopt_loop]; cbn [List.length] in Hn; try lia;
    try (intros H; injection H as <- <-; split; reflexivity).
  destruct (negb (String.prefix "-" a) || (a =? "-")%string);
    [intros H; injection H as <- <-; split; reflexivity |].
  destruct (a =? "--")%string;
    [intros H; injection H as <- <-; split; reflexivity |].
  destruct (String.prefix "--" a); [discriminate |].
  destruct (Getopt.do_shorts acc _ "hm:" (hd_error rest0))
    as [[acc' consumed] | e] eqn:E; [| discriminate].
  destruct (do_shorts_hm _ _ _ _ _ E) as [-> Hg].
  destruct consumed.
  - destruct rest0 as [| b rest1].
    + intros H. injection H as <- <-. split; [reflexivity | exact Hg].
    + intros H. cbn [List.length] in Hn.
      destruct (IH rest1 acc' opts rest ltac:(lia) H) as [H1 H2].
      split; [exact H1 | congruence].
  - intros H.
    destruct (IH rest0 acc' opts rest ltac:(lia) H) as [H1 H2].
    split; [exact H1 | congruence].
Qed.

Lemma memhash_parse_has_no_r args opts rest :
  Getopt.getopt args "hm:" = Ok (opts, rest) ->
  Getopt.getopt args "hm:r:" = Ok (opts, rest) /\ given "-r" opts = false.
Proof.
  unfold Getopt.getopt. intros H.
  destruct (getopt_loop_hm args [] opts rest H) as [H1 H2].
  split; [exact H1 | exact H2].
Qed.

(** Whenever [-r] is parsed as an option, and whenever even the option
    string of memyara rejects the arguments, [getopt] fails in memhash. *)
Lemma memhash_getopt_fails_on_r args :
  (forall opts rest,
      Getopt.getopt args "hm:r:" = Ok (opts, rest) ->
      given "-r" opts = true ->
      Getopt.getopt args "hm:" = Raise GetoptError)
  /\ (forall e,
         Getopt.getopt args "hm:r:" = Raise e ->
         Getopt.getopt args "hm:" = Raise GetoptError).
Proof.
  destruct (Getopt.getopt args "hm:") as [[o r] | e0] eqn:E.
  - destruct (memhash_parse_has_no_r _ _ _ E) as [H1 H2].
    split; intros; congruence.
  - rewrite (getopt_raises _ _ _ E). split; reflexivity.
Qed.

(** C6, as the code has it.  memyara: when the arguments parse and the
    parsed options hold neither [-h] nor [-r], [main] prints the usage
    and returns ['Incorrect arguments (Path to Yara rule file required)']
    without any other call.  memhash: its option string is ['hm:'], so
    every argument list in which [-r] is parsed as an option (one that
    the option string of memyara parses into options holding [-r]), and
    every argument list that even the option string of memyara rejects,
    makes [getopt] fail, and [main] prints the usage and returns
    ['Incorrect arguments (check log window)']; this includes every list
    whose first argument starts with [-r].  What memhash does parse holds
    no [-r] option. *)
Theorem rules_option_required_and_memyara_only h :
  (forall args opts rest,
      Getopt.getopt args "hm:r:" = Ok (opts, rest) ->
      given "-h" opts = false ->
      given "-r" opts = false ->
      memyara.main h args
      = (fst memyara.usage,
         Ok "Incorrect arguments (Path to Yara rule file required)"))
  /\ (forall args opts rest,
         Getopt.getopt args "hm:r:" = Ok (opts, rest) ->
         given "-r" opts = true ->
         Getopt.getopt args "hm:" = Raise GetoptError
         /\ memhash.main h args
            = (fst memhash.usage,
               Ok "Incorrect arguments (check log window)"))
  /\ (forall args e,
         Getopt.getopt args "hm:r:" = Raise e ->
         Getopt.getopt args "hm:" = Raise GetoptError
         /\ memhash.main h args
            = (fst memhash.usage,
               Ok "Incorrect arguments (check log window)"))
  /\ (forall a rest,
         String.prefix "-r" a = true ->
         Getopt.getopt (a :: rest) "hm:" = Raise GetoptError
         /\ memhash.main h (a :: rest)
            = (fst memhash.usage,
               Ok "Incorrect arguments (check log window)"))
  /\ (forall args opts rest,
         Getopt.getopt args "hm:" = Ok (opts, rest) ->
         given "-r" opts = false).
Proof.
  assert (Hfail : forall args,
             Getopt.getopt args "hm:" = Raise GetoptError ->
             Getopt.getopt args "hm:" = Raise GetoptError
             /\ memhash.main h args
                = (fst memhash.usage,
                   Ok "Incorrect arguments (check log window)")).
  { intros args Hg. split; [exact Hg |].
    unfold memhash.main. rewrite Hg. reflexivity. }
  split; [| split; [| split; [| split]]].
  - intros args opts rest Hg Hh Hr.
    unfold memyara.main.
    rewrite Hg, try_except_Ok.
    rewrite (memyara_scan_opts_no_help _ _ _ Hh).
    rewrite (last_value_not_given _ _ _ Hr).
    reflexivity.
  - intros args opts rest Hg Hr.
    apply Hfail, (proj1 (memhash_getopt_fails_on_r args) opts rest Hg Hr).
  - intros args e Hg.
    apply Hfail, (proj2 (memhash_getopt_fails_on_r args) e Hg).
  - intros a rest Ha.
    apply Hfail, memhash_getopt_rejects_r, Ha.
  - intros args opts rest Hg.
    apply (memhash_parse_has_no_r _ _ _ Hg).
Qed.

Lemma rules_option_required_and_memyara_only_witness :
  memyara.main Sample.host ["-m"; "kernel32"; "40000000"]
  = (fst memyara.usage,
     Ok "Incorrect arguments (Path to Yara rule file required)")
  /\ memhash.main Sample.host ["-m"; "kernel32"; "-r"; "rules.yar"]
     = (fst memhash.usage, Ok "Incorrect arguments (check log window)")
  /\ memhash.main Sample.host ["-hr"]
     = (fst memhash.usage, Ok "Incorrect arguments (check log window)")
  /\ memhash.main Sample.host ["-r"; "rules.yar"; "40000000"; "80000000"]
     = (fst memhash.usage, Ok "Incorrect arguments (check log window)")
  /\ given "-r" [("-m", "-r")] = false.
Proof.
  pose proof (rules_option_required_and_memyara_only Sample.host)
    as (H1 & H2 & H3 & H4 & H5).
  split; [| split; [| split; [| split]]].
  - apply (H1 ["-m"; "kernel32"; "40000000"] [("-m", "kernel32")]
              ["40000000"]);
      reflexivity.
  - apply (H2 ["-m"; "kernel32"; "-r"; "rules.yar"]
              [("-m", "kernel32"); ("-r", "rules.yar")] []);
      reflexivity.
  - apply (H3 ["-hr"] GetoptError). reflexivity.
  - apply (H4 "-r" ["rules.yar"; "40000000"; "80000000"]). reflexivity.
  - apply (H5 ["-m"; "-r"] [("-m", "-r")] []). reflexivity.
Defined.

(** C6 as first stated does not hold.  An argument list without [-r] and
    without [-h] can make memyara return another string: [-x] is refused
    by [getopt].  And an argument list of memhash that contains [-r] need
    not make [getopt] fail: after [-m] it is the module name. *)
Lemma rules_option_counterexample :
  (snd (memyara.main Sample.host ["-x"])
   = Ok "Incorrect arguments (check log window)"
   /\ snd (memyara.main Sample.host ["-x"])
      <> Ok "Incorrect arguments (Path to Yara rule file required)")
  /\ (Getopt.getopt ["-m"; "-r"] "hm:" = Ok ([("-m", "-r")], [])
      /\ memhash.main Sample.host ["-m"; "-r"]
         = ([GetModule "-r.dll"], Ok "-r.dll is not a loaded module")
      /\ snd (memhash.main Sample.host ["-m"; "-r"])
         <> Ok "Incorrect arguments (check log window)").
Proof.
  repeat split; try reflexivity; vm_compute; discriminate.
Qed.

(* ===================================================================== *)
(** ** The results table *)
(* ===================================================================== *)

Lemma getitem_nat {A : Type} (l : list A) (i : nat) :
  getitem l (Z.of_nat i) =
  match nth_error l i with
  | Some a => Ok a
  | None => Raise IndexError
  end.
Proof.
  assert (Hlt : (Z.of_nat i <? 0) = false) by (apply Z.ltb_ge; lia).
  unfold getitem. cbv zeta. rewrite Hlt. cbv iota. rewrite Hlt.
  cbn [orb]. rewrite Nat2Z.id.
  destruct (Z.leb_spec (Z.of_nat (List.length l)) (Z.of_nat i)) as [Hi | Hi];
    [| reflexivity].
  assert (Hn : nth_error l i = None) by (apply nth_error_None; lia).
  rewrite Hn. reflexivity.
Qed.

Lemma fmt_ld_raises v e : fmt_ld v = Raise e -> e = TypeError.
Proof.
  destruct v as [z | s | [| [z | s | t] [| x items]]]; simpl; congruence.
Qed.

(** A displayable match adds exactly its row, with first argument 0. *)
Lemma display_match_ok m :
  displayable m = true ->
  memyara.display_match m = ([TableAdd 0 (row_of m)], Ok tt).
Proof.
  unfold displayable, memyara.display_match, row_of.
  destruct (strings m) as [| s0 [| s1 [| s2 l]]]; try discriminate.
  change 0 with (Z.of_nat 0) at 1.
  change 1 with (Z.of_nat 1). change 2 with (Z.of_nat 2).
  rewrite !getitem_nat. cbn [nth_error nth].
  rewrite bind_lift_Ok.
  destruct (fmt_ld s0) as [off | e]; [| discriminate].
  intros _. reflexivity.
Qed.

(** Any other match stops the loop with an exception before a row is
    added: [IndexError] for a missing field, [TypeError] when the first
    field is not a number. *)
Lemma display_match_raises m :
  displayable m = false ->
  exists e, memyara.display_match m = ([], Raise e)
            /\ (e = IndexError \/ e = TypeError).
Proof.
  unfold displayable, memyara.display_match.
  change 0 with (Z.of_nat 0) at 1.
  change 1 with (Z.of_nat 1). change 2 with (Z.of_nat 2).
  rewrite !getitem_nat.
  destruct (strings m) as [| s0 l]; cbn [nth_error].
  - intros _. exists IndexError. split; [reflexivity | now left].
  - rewrite bind_lift_Ok.
    destruct (fmt_ld s0) as [off | e] eqn:Ef.
    + rewrite bind_lift_Ok.
      destruct l as [| s1 [| s2 l]]; cbn [nth_error]; try discriminate;
        intros _; exists IndexError; (split; [reflexivity | now left]).
    + pose proof (fmt_ld_raises _ _ Ef) as ->.
      intros _. exists TypeError. split; [reflexivity | now right].
Qed.

Lemma displayable_three m :
  displayable m = true -> (3 <= List.length (strings m))%nat.
Proof.
  unfold displayable.
  destruct (strings m) as [| s0 [| s1 [| s2 l]]]; try discriminate.
  intros _. simpl. lia.
Qed.

Lemma display_matches_ok ms :
  forallb displayable ms = true ->
  memyara.display_matches ms
  = (map (fun m => TableAdd 0 (row_of m)) ms, Ok tt).
Proof.
  induction ms as [| m ms IH]; [reflexivity |].
  simpl. intros H. apply andb_true_iff in H as [Hm Hms].
  rewrite (display_match_ok m Hm), (bind_Ok _ _ _ _ eq_refl), (IH Hms).
  reflexivity.
Qed.

Lemma display_matches_returns ms :
  snd (memyara.display_matches ms) = Ok tt ->
  forallb displayable ms = true.
Proof.
  induction ms as [| m ms IH]; [reflexivity |].
  simpl. destruct (displayable m) eqn:Hm.
  - rewrite (display_match_ok m Hm), (bind_Ok _ _ _ _ eq_refl).
    exact IH.
  - destruct (display_match_raises m Hm) as (e & -> & _). discriminate.
Qed.

Lemma display_results_run ms :
  memyara._display_results ms =
  (CreateTable "Yara matches" ["Rule"; "Offset"; "Identifier"; "Offset"]
     :: fst (memyara.display_matches ms),
   snd (memyara.display_matches ms)).
Proof.
  unfold memyara._display_results, call.
  rewrite (bind_Ok _ _ _ _ eq_refl). reflexivity.
Qed.

Lemma table_rows_adds ms :
  table_rows (map (fun m => TableAdd 0 (row_of m)) ms)
  = map (fun m => (0, row_of m)) ms.
Proof.
  induction ms as [| m ms IH]; [reflexivity |].
  unfold table_rows in *. simpl. rewrite IH. reflexivity.
Qed.

(** C7.  When every match record is displayable, [_display_results]
    creates the table and adds exactly one row per match, in order, each
    carrying the rule name and the three string fields (the first one
    formatted with ['%ld']); on the success path of [run_yara_on_module]
    and of [run_yara_on_address_range] these are the rows of the table and
    the string returned is ['<n> matches'] with [n] the number of matches
    [rules.match] returned. *)
Theorem every_match_reported h (r : rules h) :
  (forall ms,
      forallb displayable ms = true ->
      memyara._display_results ms
      = (CreateTable "Yara matches" ["Rule"; "Offset"; "Identifier"; "Offset"]
           :: map (fun m => TableAdd 0 (row_of m)) ms,
         Ok tt))
  /\ (forall module_name m,
         host_getModule h (lookup_name module_name) = Some m ->
         let ms :=
           host_match h r
             (host_readMemory h (getBaseAddress m) (getSize m)) in
         forallb displayable ms = true ->
         snd (memyara.run_yara_on_module h module_name r)
         = Ok (fmt_d (Z.of_nat (List.length ms)) ++ " matches")
         /\ table_rows (fst (memyara.run_yara_on_module h module_name r))
            = map (fun m => (0, row_of m)) ms)
  /\ (forall start_addr end_addr start end_,
         int16 start_addr = Ok start ->
         int16 end_addr = Ok end_ ->
         start < end_ ->
         let ms := host_match h r (host_readMemory h start (end_ - start)) in
         forallb displayable ms = true ->
         snd (memyara.run_yara_on_address_range h start_addr end_addr r)
         = Ok (fmt_d (Z.of_nat (List.length ms)) ++ " matches")
         /\ table_rows
              (fst (memyara.run_yara_on_address_range h start_addr end_addr r))
            = map (fun m => (0, row_of m)) ms).
Proof.
  assert (Hd : forall ms,
             forallb displayable ms = true ->
             memyara._display_results ms
             = (CreateTable "Yara matches"
                            ["Rule"; "Offset"; "Identifier"; "Offset"]
                  :: map (fun m => TableAdd 0 (row_of m)) ms,
                Ok tt)).
  { intros ms Hms.
    rewrite display_results_run, (display_matches_ok ms Hms). reflexivity. }
  split; [exact Hd |]. split.
  - intros module_name m Hm ms Hms.
    rewrite run_yara_on_module_run, Hm. cbv zeta. fold ms.
    rewrite (Hd ms Hms). cbn [fst snd]. split; [reflexivity |].
    unfold table_rows. cbn [flat_map app].
    apply table_rows_adds.
  - intros start_addr end_addr start end_ Hs He Hlt ms Hms.
    rewrite run_yara_on_address_range_run, Hs, He.
    assert (Hb : (start >=? end_) = false).
    { destruct (start >=? end_) eqn:E;
        [apply Z.geb_le in E; lia | reflexivity]. }
    rewrite Hb. cbv zeta. fold ms.
    rewrite (Hd ms Hms). cbn [fst snd]. split; [reflexivity |].
    unfold table_rows. cbn [flat_map app].
    apply table_rows_adds.
Qed.

Lemma every_match_reported_witness :
  snd (memyara.run_yara_on_module Sample.host "kernel32" tt) = Ok "2 matches"
  /\ table_rows (fst (memyara.run_yara_on_module Sample.host "kernel32" tt))
     = [(0, [PStr "r1"; PStr "5"; PStr "$a"; PStr "abc"]);
        (0, [PStr "r1"; PStr "5"; PStr "$a"; PStr "abc"])].
Proof.
  exact (proj1 (proj2 (every_match_reported Sample.host tt))
           "kernel32" Sample.kernel32 eq_refl eq_refl).
Defined.

(** C10.  [_display_results] indexes [strings[0]], [strings[1]] and
    [strings[2]] unguarded: it returns only if every match record holds at
    least three entries, a record with fewer makes it raise, and every row
    it adds is added with first argument 0. *)
Theorem display_needs_three_strings (ms : list yara_match) :
  (snd (memyara._display_results ms) = Ok tt ->
   Forall (fun m => (3 <= List.length (strings m))%nat) ms)
  /\ (forall m,
         In m ms -> (List.length (strings m) < 3)%nat ->
         exists e, snd (memyara._display_results ms) = Raise e)
  /\ Forall (fun row => fst row = 0)
            (table_rows (fst (memyara._display_results ms))).
Proof.
  assert (H3 : snd (memyara._display_results ms) = Ok tt ->
               Forall (fun m => (3 <= List.length (strings m))%nat) ms).
  { rewrite display_results_run. cbn [snd]. intros H.
    apply display_matches_returns in H.
    apply Forall_forall. intros m Hin.
    apply displayable_three.
    rewrite forallb_forall in H. apply H, Hin. }
  split; [exact H3 |]. split.
  - intros m Hin Hlt.
    destruct (snd (memyara._display_results ms)) as [[] | e] eqn:E.
    + specialize (H3 eq_refl). rewrite Forall_forall in H3.
      specialize (H3 m Hin). lia.
    + exists e. reflexivity.
  - pose proof (display_results_table_calls ms) as H.
    induction (fst (memyara._display_results ms)) as [| e t IH];
      [constructor |].
    simpl in H. apply andb_true_iff in H as [He Ht].
    unfold table_rows in *.
    destruct e; try discriminate; simpl; auto.
    constructor; [simpl; apply Z.eqb_eq, He | auto].
Qed.

Lemma display_needs_three_strings_witness :
  Forall (fun m => (3 <= List.length (strings m))%nat) [Sample.a_match]
  /\ exists e,
      snd (memyara._display_results [Sample.a_match; Sample.short_match])
      = Raise e.
Proof.
  split.
  - apply (proj1 (display_needs_three_strings [Sample.a_match])).
    reflexivity.
  - apply (proj1 (proj2 (display_needs_three_strings
                           [Sample.a_match; Sample.short_match]))
             Sample.short_match).
    + right. left. reflexivity.
    + simpl. lia.
Defined.

(* ===================================================================== *)
(** ** Section hashing *)
(* ===================================================================== *)

Lemma hash_section_run h m pe s :
  memhash.hash_section h m pe s =
  if SectionAlignment pe =? 0 then ([], Raise ZeroDivisionError)
  else
    let start := getBaseAddress m + VirtualAddress s in
    let size :=
      Misc_VirtualSize s
      + (SectionAlignment pe - Misc_VirtualSize s mod SectionAlignment pe) in
    let data := host_readMemory h start size in
    ([ReadMemory start size; Md5 data;
      Log (name m ++ " " ++ hd "" (split zero (Name s))
                ++ " MD5: " ++ host_md5 h data)],
     Ok tt).
Proof.
  unfold memhash.hash_section, mod_.
  destruct (split_cons zero (Name s)) as [w [ws ->]].
  rewrite getitem_first, bind_lift_Ok.
  destruct (SectionAlignment pe =? 0); reflexivity.
Qed.

Lemma hash_sections_reads h m pe ss :
  SectionAlignment pe <> 0 ->
  snd (memhash.hash_sections h m pe ss) = Ok tt
  /\ reads (fst (memhash.hash_sections h m pe ss))
     = map (fun s =>
              (getBaseAddress m + VirtualAddress s,
               Misc_VirtualSize s
               + (SectionAlignment pe
                  - Misc_VirtualSize s mod SectionAlignment pe))) ss.
Proof.
  intros Ha. apply Z.eqb_neq in Ha.
  induction ss as [| s ss [IHr IHt]]; [split; reflexivity |].
  simpl. rewrite hash_section_run, Ha. cbv zeta.
  rewrite (bind_Ok _ _ _ _ eq_refl).
  split; [exact IHr |].
  cbn [fst]. unfold reads in *. rewrite flat_map_app, IHt. reflexivity.
Qed.

(** C8.  The length [hash_module] reads for a section is
    [virtual_size + (alignment - virtual_size % alignment)].  For a
    positive alignment it is strictly greater than [virtual_size], and
    equal to [virtual_size + alignment] when [virtual_size] is a multiple
    of the alignment.  For alignment 0 the [%] raises [ZeroDivisionError]
    at the first section, before any read. *)
Theorem section_read_length h (m : module) (pe : pe_file) :
  let alignment := SectionAlignment pe in
  let size := fun s : section =>
    Misc_VirtualSize s + (alignment - Misc_VirtualSize s mod alignment) in
  (0 < alignment ->
   (forall s,
       reads (fst (memhash.hash_section h m pe s))
       = [(getBaseAddress m + VirtualAddress s, size s)]
       /\ Misc_VirtualSize s < size s
       /\ (Misc_VirtualSize s mod alignment = 0 ->
           size s = Misc_VirtualSize s + alignment))
   /\ (forall module_name,
          host_getModule h (lookup_name module_name) = Some m ->
          host_PE h (getPath m) = Ok pe ->
          reads (fst (memhash.hash_module h module_name))
          = map (fun s => (getBaseAddress m + VirtualAddress s, size s))
                (sections pe)))
  /\ (alignment = 0 ->
      (forall s,
          memhash.hash_section h m pe s = ([], Raise ZeroDivisionError))
      /\ (forall module_name,
             host_getModule h (lookup_name module_name) = Some m ->
             host_PE h (getPath m) = Ok pe ->
             sections pe <> [] ->
             snd (memhash.hash_module h module_name) = Raise ZeroDivisionError
             /\ reads (fst (memhash.hash_module h module_name)) = [])).
Proof.
  intros alignment size. split.
  - intros Hpos.
    assert (Hne : (SectionAlignment pe =? 0) = false)
      by (apply Z.eqb_neq; unfold alignment in Hpos; lia).
    split.
    + intros s. rewrite hash_section_run, Hne. cbv zeta.
      split; [reflexivity |].
      pose proof (Z.mod_pos_bound (Misc_VirtualSize s) alignment Hpos).
      unfold size. split; [lia |]. intros ->. lia.
    + intros module_name Hm Hpe.
      rewrite hash_module_run, Hm, Hpe. cbv zeta.
      apply Z.eqb_neq in Hne.
      destruct (hash_sections_reads h m pe (sections pe) Hne) as [_ Hr].
      unfold reads in *. cbn [fst flat_map app]. exact Hr.
  - intros Hz. unfold alignment in Hz.
    assert (Hs : forall s,
               memhash.hash_section h m pe s = ([], Raise ZeroDivisionError)).
    { intros s. rewrite hash_section_run, Hz. reflexivity. }
    split; [exact Hs |].
    intros module_name Hm Hpe Hne.
    rewrite hash_module_run, Hm, Hpe. cbv zeta.
    destruct (sections pe) as [| s ss]; [congruence |].
    simpl. rewrite Hs. split; reflexivity.
Qed.

Lemma section_read_length_witness :
  reads (fst (memhash.hash_module Sample.host "kernel32"))
  = [(4096 + 16, 32); (4096 + 64, 32 + 16)].
Proof.
  exact (proj2 (proj1 (section_read_length Sample.host Sample.kernel32
                         (mkPE [mkSection ".text" 16 30;
                                mkSection ".data" 64 32] 16))
                  ltac:(reflexivity))
           "kernel32" eq_refl eq_refl).
Defined.

(* ===================================================================== *)
(** ** What reaches the host *)
(* ===================================================================== *)

(** The address-range path of memhash always ends in a returned string. *)
Lemma hash_address_range_returns h start_addr end_addr :
  exists s, snd (memhash.hash_address_range h start_addr end_addr) = Ok s.
Proof.
  rewrite hash_address_range_run.
  destruct (int16 start_addr) as [start | ?]; [| eexists; reflexivity].
  destruct (int16 end_addr) as [end_ | ?]; [| eexists; reflexivity].
  destruct (start >=? end_); eexists; reflexivity.
Qed.

(** An unknown module is reported as a string by both scripts. *)
Lemma unknown_module_reported h (r : rules h) module_name :
  host_getModule h (lookup_name module_name) = None ->
  snd (memhash.hash_module h module_name)
  = Ok (lookup_name module_name ++ " is not a loaded module")
  /\ snd (memyara.run_yara_on_module h module_name r)
     = Ok (lookup_name module_name ++ " is not a loaded module").
Proof.
  intros Hm. rewrite hash_module_run, run_yara_on_module_run, Hm.
  split; reflexivity.
Qed.

(** C1.  [hash_module] calls [PE(name=module.getPath())] outside any
    [try]: when [pefile] cannot parse the file of a loaded module, the
    exception leaves memhash's [main] instead of a string. *)
Theorem pe_failure_escapes_memhash h (module_name : string) (m : module)
        (e : exn) :
  module_name <> "" ->
  host_getModule h (lookup_name module_name) = Some m ->
  host_PE h (getPath m) = Raise e ->
  memhash.main h ["-m"; module_name]
  = ([GetModule (lookup_name module_name); OpenPE (getPath m)], Raise e).
Proof.
  intros Hn Hm Hpe.
  unfold memhash.main.
  change (Getopt.getopt ["-m"; module_name] "hm:")
    with (@Ok (Getopt.opts * list string) ([("-m", module_name)], [])).
  rewrite try_except_Ok.
  change (memhash.scan_opts [("-m", module_name)] None)
    with (@ret (string + option string) (inr (Some module_name))).
  unfold ret, bind at 1. cbn [app].
  rewrite (truthy_nonempty _ Hn).
  rewrite hash_module_run, Hm, Hpe. reflexivity.
Qed.

Lemma pe_failure_escapes_memhash_witness :
  memhash.main Sample.host_bad_pe ["-m"; "kernel32"]
  = ([GetModule "kernel32.dll"; OpenPE "C:\WINDOWS\system32\kernel32.dll"],
     Raise PEFormatError).
Proof.
  apply (pe_failure_escapes_memhash Sample.host_bad_pe "kernel32"
           Sample.kernel32 PEFormatError);
    [discriminate | reflexivity | reflexivity].
Defined.

(* ===================================================================== *)
(** ** Dispatch in the two [main] functions *)
(* ===================================================================== *)

Lemma bind_nil_Ok {A B : Type} (a : A) (k : A -> M B) :
  bind ([], Ok a) k = k a.
Proof. exact (bind_lift_Ok a k). Qed.

Lemma two_positionals {B : Type} (rest : list string)
      (k : string -> string -> M B) (other : M B) :
  (if (List.length rest =? 2)%nat
   then a0 <- lift (getitem rest 0) ;; a1 <- lift (getitem rest 1) ;; k a0 a1
   else other)
  = match rest with
    | [a0; a1] => k a0 a1
    | _ => other
    end.
Proof.
  destruct rest as [| a0 [| a1 [| a2 rest]]]; try reflexivity.
  cbn [List.length Nat.eqb].
  change (getitem [a0; a1] 0) with (Ok a0).
  change (getitem [a0; a1] 1) with (Ok a1).
  rewrite !bind_lift_Ok. reflexivity.
Qed.

(** [main] of memhash once the arguments parsed without [-h]. *)
Lemma memhash_main_parsed h args opts rest :
  Getopt.getopt args "hm:" = Ok (opts, rest) ->
  given "-h" opts = false ->
  memhash.main h args =
  let otherwise :=
    match rest with
    | [a0; a1] => memhash.hash_address_range h a0 a1
    | _ => (fst memhash.usage, Ok "Incorrect arguments (check log window)")
    end in
  match last_value "-m" opts None with
  | Some m => if truthy m then memhash.hash_module h m else otherwise
  | None => otherwise
  end.
Proof.
  intros Hg Hh. unfold memhash.main.
  rewrite Hg, try_except_Ok, (memhash_scan_opts_no_help _ _ Hh), bind_nil_Ok.
  cbv zeta. rewrite two_positionals.
  destruct (last_value "-m" opts None) as [m |]; reflexivity.
Qed.

(** [main] of memyara once the arguments parsed without [-h], a rules
    file was named and it compiled. *)
Lemma memyara_main_compiled h args opts rest path (r : rules h) :
  Getopt.getopt args "hm:r:" = Ok (opts, rest) ->
  given "-h" opts = false ->
  last_value "-r" opts None = Some path ->
  path <> "" ->
  host_compile h path = Ok r ->
  memyara.main h args =
  let otherwise :=
    match rest with
    | [a0; a1] => memyara.run_yara_on_address_range h a0 a1 r
    | _ => (fst memyara.usage, Ok "Incorrect arguments (check log window)")
    end in
  let target :=
    match last_value "-m" opts None with
    | Some m => if truthy m then memyara.run_yara_on_module h m r
                else otherwise
    | None => otherwise
    end in
  (YaraCompile path :: fst target, snd target).
Proof.
  intros Hg Hh Hr Hp Hc. unfold memyara.main.
  rewrite Hg, try_except_Ok, (memyara_scan_opts_no_help _ _ _ Hh), bind_nil_Ok.
  rewrite Hr, (truthy_nonempty _ Hp). cbn [negb].
  unfold yara_compile, call, lift, bind at 1. rewrite Hc.
  unfold try_except. cbv zeta. rewrite two_positionals.
  match goal with
  | |- (let '(t, x) := ?c in _) = _ =>
      transitivity (YaraCompile path :: fst c, snd c);
      [destruct c; reflexivity |]
  end.
  destruct (last_value "-m" opts None) as [m |]; reflexivity.
Qed.

(** X1.  memhash: when the arguments parse without [-h] and the last [-m]
    names a non-empty module, [main] is [hash_module] on that module,
    whatever positional arguments follow and whatever earlier [-m] said. *)
Theorem memhash_module_option_wins h args opts rest (m : string) :
  Getopt.getopt args "hm:" = Ok (opts, rest) ->
  given "-h" opts = false ->
  last_value "-m" opts None = Some m ->
  m <> "" ->
  memhash.main h args = memhash.hash_module h m.
Proof.
  intros Hg Hh Hm Hn.
  rewrite (memhash_main_parsed h _ _ _ Hg Hh), Hm, (truthy_nonempty _ Hn).
  reflexivity.
Qed.

Lemma memhash_module_option_wins_witness :
  memhash.main Sample.host ["-m"; "user32"; "-m"; "kernel32"; "10"; "20"]
  = memhash.hash_module Sample.host "kernel32".
Proof.
  apply (memhash_module_option_wins Sample.host _
           [("-m", "user32"); ("-m", "kernel32")] ["10"; "20"] "kernel32");
    [reflexivity | reflexivity | reflexivity | discriminate].
Defined.

(** X2.  memhash: two positional arguments reach [hash_address_range]
    unchanged when the first does not start with ['-'], after a ['--']
    separator whatever they are, and after an empty [-m] argument. *)
Theorem memhash_positional_range h (a0 a1 : string) :
  (String.prefix "-" a0 = false ->
   memhash.main h [a0; a1] = memhash.hash_address_range h a0 a1
   /\ memhash.main h ["-m"; ""; a0; a1] = memhash.hash_address_range h a0 a1)
  /\ memhash.main h ["--"; a0; a1] = memhash.hash_address_range h a0 a1.
Proof.
  split.
  - intros Hp.
    assert (G1 : Getopt.getopt [a0; a1] "hm:" = Ok ([], [a0; a1])).
    { unfold Getopt.getopt. cbn [Getopt.getopt_loop]. rewrite Hp.
      reflexivity. }
    assert (G2 : Getopt.getopt ["-m"; ""; a0; a1] "hm:"
                 = Ok ([("-m", "")], [a0; a1])).
    { change (Getopt.getopt ["-m"; ""; a0; a1] "hm:")
        with (Getopt.getopt_loop [("-m", "")] "hm:" [a0; a1]).
      cbn [Getopt.getopt_loop]. rewrite Hp. reflexivity. }
    split.
    + rewrite (memhash_main_parsed h _ _ _ G1 eq_refl). reflexivity.
    + rewrite (memhash_main_parsed h _ _ _ G2 eq_refl). reflexivity.
  - assert (G : Getopt.getopt ["--"; a0; a1] "hm:" = Ok ([], [a0; a1]))
      by reflexivity.
    rewrite (memhash_main_parsed h _ _ _ G eq_refl). reflexivity.
Qed.

Lemma memhash_positional_range_witness :
  memhash.main Sample.host ["40000000"; "40000010"]
  = memhash.hash_address_range Sample.host "40000000" "40000010".
Proof.
  apply (proj1 (memhash_positional_range Sample.host "40000000" "40000010")).
  reflexivity.
Defined.

(** X3.  memhash: when the arguments parse without [-h], no non-empty
    module is named and the number of positional arguments is not two,
    [main] prints the usage, returns
    ['Incorrect arguments (check log window)'] and calls nothing else. *)
Theorem memhash_wrong_positional_count h args opts rest :
  Getopt.getopt args "hm:" = Ok (opts, rest) ->
  given "-h" opts = false ->
  last_value "-m" opts None = None \/ last_value "-m" opts None = Some "" ->
  List.length rest <> 2%nat ->
  memhash.main h args
  = (fst memhash.usage, Ok "Incorrect arguments (check log window)").
Proof.
  intros Hg Hh Hm Hl.
  rewrite (memhash_main_parsed h _ _ _ Hg Hh).
  assert (Ho : match rest with
               | [a0; a1] => memhash.hash_address_range h a0 a1
               | _ => (fst memhash.usage,
                       Ok "Incorrect arguments (check log window)")
               end
               = (fst memhash.usage,
                  Ok "Incorrect arguments (check log window)")).
  { destruct rest as [| a0 [| a1 [| a2 rest]]]; try reflexivity.
    simpl in Hl. congruence. }
  cbv zeta. rewrite Ho.
  destruct Hm as [-> | ->]; reflexivity.
Qed.

Lemma memhash_wrong_positional_count_witness :
  memhash.main Sample.host ["40000000"]
  = (fst memhash.usage, Ok "Incorrect arguments (check log window)").
Proof.
  apply (memhash_wrong_positional_count Sample.host _ [] ["40000000"]);
    [reflexivity | reflexivity | left; reflexivity | simpl; lia].
Defined.

(** X4.  memyara: when the arguments parse without [-h], the last [-r]
    names a rules file that compiles and the last [-m] names a non-empty
    module, [main] is that one [yara.compile] call followed by
    [run_yara_on_module] with the compiled rules; positional arguments
    are ignored. *)
Theorem memyara_module_option_wins h args opts rest path (r : rules h)
        (m : string) :
  Getopt.getopt args "hm:r:" = Ok (opts, rest) ->
  given "-h" opts = false ->
  last_value "-r" opts None = Some path ->
  path <> "" ->
  host_compile h path = Ok r ->
  last_value "-m" opts None = Some m ->
  m <> "" ->
  memyara.main h args
  = (YaraCompile path :: fst (memyara.run_yara_on_module h m r),
     snd (memyara.run_yara_on_module h m r)).
Proof.
  intros Hg Hh Hr Hp Hc Hm Hn.
  rewrite (memyara_main_compiled h _ _ _ _ r Hg Hh Hr Hp Hc).
  cbv zeta. rewrite Hm, (truthy_nonempty _ Hn). reflexivity.
Qed.

Lemma memyara_module_option_wins_witness :
  memyara.main Sample.host ["-r"; "x.yar"; "-m"; "kernel32"; "10"]
  = (YaraCompile "x.yar"
       :: fst (memyara.run_yara_on_module Sample.host "kernel32" tt),
     snd (memyara.run_yara_on_module Sample.host "kernel32" tt)).
Proof.
  apply (memyara_module_option_wins Sample.host _
           [("-r", "x.yar"); ("-m", "kernel32")] ["10"] "x.yar" tt "kernel32");
    [reflexivity | reflexivity | reflexivity | discriminate | reflexivity
    | reflexivity | discriminate].
Defined.

(** X5.  memyara: with a rules file that compiles, no non-empty module and
    exactly two positional arguments, [main] is the [yara.compile] call
    followed by [run_yara_on_address_range] on those two arguments. *)
Theorem memyara_positional_range h args opts (a0 a1 : string) path
        (r : rules h) :
  Getopt.getopt args "hm:r:" = Ok (opts, [a0; a1]) ->
  given "-h" opts = false ->
  last_value "-r" opts None = Some path ->
  path <> "" ->
  host_compile h path = Ok r ->
  last_value "-m" opts None = None \/ last_value "-m" opts None = Some "" ->
  memyara.main h args
  = (YaraCompile path
       :: fst (memyara.run_yara_on_address_range h a0 a1 r),
     snd (memyara.run_yara_on_address_range h a0 a1 r)).
Proof.
  intros Hg Hh Hr Hp Hc Hm.
  rewrite (memyara_main_compiled h _ _ _ _ r Hg Hh Hr Hp Hc).
  cbv zeta. destruct Hm as [-> | ->]; reflexivity.
Qed.

Lemma memyara_positional_range_witness :
  memyara.main Sample.host ["-r"; "x.yar"; "10"; "12"]
  = (YaraCompile "x.yar"
       :: fst (memyara.run_yara_on_address_range Sample.host "10" "12" tt),
     snd (memyara.run_yara_on_address_range Sample.host "10" "12" tt)).
Proof.
  apply (memyara_positional_range Sample.host _ [("-r", "x.yar")]
           "10" "12" "x.yar" tt);
    [reflexivity | reflexivity | reflexivity | discriminate | reflexivity
    | left; reflexivity].
Defined.

(** X6.  memyara compiles the rules before it looks at the positional
    arguments: with a rules file that compiles, no non-empty module and a
    number of positional arguments other than two, [main] has called
    [yara.compile] and then prints the usage and returns
    ['Incorrect arguments (check log window)']. *)
Theorem memyara_compiles_before_counting h args opts rest path
        (r : rules h) :
  Getopt.getopt args "hm:r:" = Ok (opts, rest) ->
  given "-h" opts = false ->
  last_value "-r" opts None = Some path ->
  path <> "" ->
  host_compile h path = Ok r ->
  last_value "-m" opts None = None \/ last_value "-m" opts None = Some "" ->
  List.length rest <> 2%nat ->
  memyara.main h args
  = (YaraCompile path :: fst memyara.usage,
     Ok "Incorrect arguments (check log window)").
Proof.
  intros Hg Hh Hr Hp Hc Hm Hl.
  rewrite (memyara_main_compiled h _ _ _ _ r Hg Hh Hr Hp Hc).
  assert (Ho : match rest with
               | [a0; a1] => memyara.run_yara_on_address_range h a0 a1 r
               | _ => (fst memyara.usage,
                       Ok "Incorrect arguments (check log window)")
               end
               = (fst memyara.usage,
                  Ok "Incorrect arguments (check log window)")).
  { destruct rest as [| a0 [| a1 [| a2 rest]]]; try reflexivity.
    simpl in Hl. congruence. }
  cbv zeta. rewrite Ho.
  destruct Hm as [-> | ->]; reflexivity.
Qed.

Lemma memyara_compiles_before_counting_witness :
  memyara.main Sample.host ["-r"; "x.yar"; "10"]
  = (YaraCompile "x.yar" :: fst memyara.usage,
     Ok "Incorrect arguments (check log window)").
Proof.
  apply (memyara_compiles_before_counting Sample.host _ [("-r", "x.yar")]
           ["10"] "x.yar" tt);
    [reflexivity | reflexivity | reflexivity | discriminate | reflexivity
    | left; reflexivity | simpl; lia].
Defined.

(** X7.  memyara: an empty [-r] argument counts as no rules file: the
    usage and ['Incorrect arguments (Path to Yara rule file required)'],
    with nothing compiled, even when a module or addresses are given. *)
Theorem memyara_empty_rules_path h args opts rest :
  Getopt.getopt args "hm:r:" = Ok (opts, rest) ->
  given "-h" opts = false ->
  last_value "-r" opts None = Some "" ->
  memyara.main h args
  = (fst memyara.usage,
     Ok "Incorrect arguments (Path to Yara rule file required)").
Proof.
  intros Hg Hh Hr. unfold memyara.main.
  rewrite Hg, try_except_Ok, (memyara_scan_opts_no_help _ _ _ Hh), bind_nil_Ok.
  rewrite Hr. reflexivity.
Qed.

Lemma memyara_empty_rules_path_witness :
  memyara.main Sample.host ["-m"; "kernel32"; "-r"; ""]
  = (fst memyara.usage,
     Ok "Incorrect arguments (Path to Yara rule file required)").
Proof.
  apply (memyara_empty_rules_path Sample.host _
           [("-m", "kernel32"); ("-r", "")] []);
    reflexivity.
Defined.

(** X8.  [-h] anywhere among the parsed options makes each [main] print
    its usage and return the empty string; nothing else is called, not
    even [yara.compile], whatever the other options say. *)
Theorem help_option_wins h args opts rest :
  (Getopt.getopt args "hm:" = Ok (opts, rest) ->
   given "-h" opts = true ->
   memhash.main h args = (fst memhash.usage, Ok ""))
  /\ (Getopt.getopt args "hm:r:" = Ok (opts, rest) ->
      given "-h" opts = true ->
      memyara.main h args = (fst memyara.usage, Ok "")).
Proof.
  split; intros Hg Hh.
  - unfold memhash.main.
    rewrite Hg, try_except_Ok, (memhash_scan_opts_help _ _ Hh). reflexivity.
  - unfold memyara.main.
    rewrite Hg, try_except_Ok, (memyara_scan_opts_help _ _ _ Hh).
    reflexivity.
Qed.

Lemma help_option_wins_witness :
  memhash.main Sample.host ["-m"; "kernel32"; "-h"]
  = (fst memhash.usage, Ok "")
  /\ memyara.main Sample.host ["-r"; "x.yar"; "-h"; "10"; "20"]
     = (fst memyara.usage, Ok "").
Proof.
  split.
  - apply (proj1 (help_option_wins Sample.host _
                    [("-m", "kernel32"); ("-h", "")] []));
      reflexivity.
  - apply (proj2 (help_option_wins Sample.host _
                    [("-r", "x.yar"); ("-h", "")] ["10"; "20"]));
      reflexivity.
Defined.

(* ===================================================================== *)
(** ** Error messages of the address-range functions *)
(* ===================================================================== *)



(* ===================================================================== *)
(** ** Modules: lookup, reading, hashing *)
(* ===================================================================== *)

Lemma lookup_name_idempotent s : lookup_name (lookup_name s) = lookup_name s.
Proof.
  unfold lookup_name at 2 3.
  destruct (recognized (extension s)) eqn:E.
  - unfold lookup_name. rewrite E. reflexivity.
  - unfold lookup_name.
    change (s ++ ".dll") with (s ++ String "." "dll").
    rewrite (extension_app s "dll" eq_refl). reflexivity.
Qed.

(** X10.  Typing the [.dll] suffix oneself changes nothing: for a name
    whose extension is not [exe], [sys] or [dll], both module functions
    run on [name.dll] exactly as on [name]. *)
Theorem explicit_dll_suffix_same_run h (r : rules h) (module_name : string) :
  str_in (extension module_name) ["exe"; "sys"; "dll"] = false ->
  memhash.hash_module h (module_name ++ ".dll")
  = memhash.hash_module h module_name
  /\ memyara.run_yara_on_module h (module_name ++ ".dll") r
     = memyara.run_yara_on_module h module_name r.
Proof.
  intros He.
  assert (Hl : lookup_name module_name = module_name ++ ".dll")
    by (unfold lookup_name, recognized; rewrite He; reflexivity).
  rewrite !hash_module_run, !run_yara_on_module_run.
  rewrite <- Hl, lookup_name_idempotent. split; reflexivity.
Qed.

Lemma explicit_dll_suffix_same_run_witness :
  memhash.hash_module Sample.host "kernel32.dll"
  = memhash.hash_module Sample.host "kernel32".
Proof.
  apply (explicit_dll_suffix_same_run Sample.host tt "kernel32").
  reflexivity.
Defined.

(** X11.  An unknown module costs one [getModule] call and nothing else:
    both module functions return ['<looked-up name> is not a loaded
    module'], the name being the one looked up (suffix included). *)
Theorem unknown_module_only_looked_up h (r : rules h) (module_name : string) :
  host_getModule h (lookup_name module_name) = None ->
  memhash.hash_module h module_name
  = ([GetModule (lookup_name module_name)],
     Ok (lookup_name module_name ++ " is not a loaded module"))
  /\ memyara.run_yara_on_module h module_name r
     = ([GetModule (lookup_name module_name)],
        Ok (lookup_name module_name ++ " is not a loaded module")).
Proof.
  intros Hm. rewrite hash_module_run, run_yara_on_module_run, Hm.
  split; reflexivity.
Qed.

Lemma unknown_module_only_looked_up_witness :
  memhash.hash_module Sample.host "user32"
  = ([GetModule "user32.dll"], Ok "user32.dll is not a loaded module").
Proof.
  apply (unknown_module_only_looked_up Sample.host tt "user32").
  reflexivity.
Defined.

(** X12.  [run_yara_on_module] reads a found module in one piece: exactly
    one [readMemory], at the module's base address for the module's size,
    and the buffer it returns is the one buffer matched. *)
Theorem module_read_once h (r : rules h) (module_name : string) (m : module) :
  host_getModule h (lookup_name module_name) = Some m ->
  reads (fst (memyara.run_yara_on_module h module_name r))
  = [(getBaseAddress m, getSize m)]
  /\ matched (fst (memyara.run_yara_on_module h module_name r))
     = [host_readMemory h (getBaseAddress m) (getSize m)].
Proof.
  intros Hm. rewrite run_yara_on_module_run, Hm. cbv zeta.
  set (shown := memyara._display_results _).
  destruct (table_calls_only _ (display_results_table_calls
              (host_match h r
                 (host_readMemory h (getBaseAddress m) (getSize m)))))
    as (_ & Hr & Hx & _).
  fold shown in Hr, Hx. clearbody shown.
  unfold reads, matched in *. simpl. rewrite Hr, Hx. split; reflexivity.
Qed.

Lemma module_read_once_witness :
  reads (fst (memyara.run_yara_on_module Sample.host "kernel32" tt))
  = [(4096, 100)].
Proof.
  apply (module_read_once Sample.host tt "kernel32" Sample.kernel32).
  reflexivity.
Defined.

Lemma split_first sep s : getitem (split sep s) 0 = Ok (before sep s).
Proof.
  induction s as [| a r IH]; [reflexivity |].
  simpl. destruct (Ascii.eqb a sep); [apply getitem_first |].
  destruct (split_cons sep r) as [w [ws Hs]]. rewrite Hs in *.
  rewrite getitem_first in *. congruence.
Qed.

Lemma hd_split sep s : hd "" (split sep s) = before sep s.
Proof.
  pose proof (split_first sep s) as H.
  destruct (split_cons sep s) as [w [ws Hs]]. rewrite Hs in *.
  rewrite getitem_first in H. simpl. congruence.
Qed.

Lemma before_cut c s :
  occurs c (before c s) = false
  /\ (s = before c s \/ exists rest, s = before c s ++ String c rest).
Proof.
  induction s as [| a r [IHo IHs]]; simpl; [auto |].
  destruct (Ascii.eqb_spec a c) as [-> | Hne].
  - split; [reflexivity |]. right. exists r. reflexivity.
  - simpl. apply Ascii.eqb_neq in Hne. rewrite Hne, IHo.
    split; [reflexivity |].
    destruct IHs as [<- | [rest Hr]]; [now left |].
    right. exists rest. simpl. congruence.
Qed.

Lemma hash_sections_run h m pe ss :
  SectionAlignment pe <> 0 ->
  memhash.hash_sections h m pe ss
  = (flat_map (section_calls h m pe) ss, Ok tt).
Proof.
  intros Ha. apply Z.eqb_neq in Ha.
  induction ss as [| s ss IH]; [reflexivity |].
  simpl. rewrite hash_section_run, Ha, hd_split. cbv zeta.
  rewrite (bind_Ok _ _ _ _ eq_refl), IH. reflexivity.
Qed.

(** X13.  A found module whose PE file parses, with a non-zero section
    alignment (or no section at all): [hash_module] looks the module up,
    opens its file, and then for each section in order reads it, hashes
    exactly the bytes read and logs one line; it returns
    ['Calculated hash for <module.name>'], the name the debugger gives. *)
Theorem hash_module_section_by_section h (module_name : string)
        (m : module) (pe : pe_file) :
  host_getModule h (lookup_name module_name) = Some m ->
  host_PE h (getPath m) = Ok pe ->
  SectionAlignment pe <> 0 \/ sections pe = [] ->
  memhash.hash_module h module_name
  = (GetModule (lookup_name module_name) :: OpenPE (getPath m)
       :: flat_map (section_calls h m pe) (sections pe),
     Ok ("Calculated hash for " ++ name m)).
Proof.
  intros Hm Hpe Ha.
  rewrite hash_module_run, Hm, Hpe. cbv zeta.
  destruct Ha as [Ha | Ha].
  - rewrite (hash_sections_run h m pe _ Ha). reflexivity.
  - rewrite Ha. reflexivity.
Qed.

Lemma hash_module_section_by_section_witness :
  memhash.hash_module Sample.host "kernel32"
  = ([GetModule "kernel32.dll"; OpenPE "C:\WINDOWS\system32\kernel32.dll";
      ReadMemory 4112 32; Md5 (repeat Byte.x00 32);
      Log "kernel32.dll .text MD5: d41d8cd98f00b204e9800998ecf8427e";
      ReadMemory 4160 48; Md5 (repeat Byte.x00 48);
      Log "kernel32.dll .data MD5: d41d8cd98f00b204e9800998ecf8427e"],
     Ok "Calculated hash for kernel32.dll").
Proof.
  apply (hash_module_section_by_section Sample.host "kernel32"
           Sample.kernel32
           (mkPE [mkSection ".text" 16 30; mkSection ".data" 64 32] 16));
    [reflexivity | reflexivity | left; discriminate].
Defined.

(** X14.  The section name in a log line is [section.Name] cut at its
    first NUL character: it holds no NUL, and [Name] is either that text
    or that text followed by a NUL and a remainder. *)
Theorem logged_section_name_cut_at_nul h (m : module) (pe : pe_file)
        (s : section) :
  SectionAlignment pe <> 0 ->
  exists section_name md5sum,
    List.last (fst (memhash.hash_section h m pe s)) (Log "")
    = Log (name m ++ " " ++ section_name ++ " MD5: " ++ md5sum)
    /\ occurs zero section_name = false
    /\ (Name s = section_name
        \/ exists rest, Name s = section_name ++ String zero rest).
Proof.
  intros Ha. apply Z.eqb_neq in Ha.
  rewrite hash_section_run, Ha, hd_split. cbv zeta.
  eexists _, _. split; [reflexivity |].
  apply before_cut.
Qed.

Lemma logged_section_name_cut_at_nul_witness :
  exists section_name md5sum,
    List.last (fst (memhash.hash_section Sample.host Sample.kernel32
                      (mkPE [] 16)
                      (mkSection (".text" ++ String zero "junk") 16 30)))
              (Log "")
    = Log ("kernel32.dll" ++ " " ++ section_name ++ " MD5: " ++ md5sum)
    /\ occurs zero section_name = false
    /\ (".text" ++ String zero "junk" = section_name
        \/ exists rest,
           ".text" ++ String zero "junk" = section_name ++ String zero rest).
Proof.
  apply (logged_section_name_cut_at_nul Sample.host Sample.kernel32
           (mkPE [] 16) (mkSection (".text" ++ String zero "junk") 16 30)).
  discriminate.
Defined.

(** X15.  For a positive alignment the length read for a section is the
    least multiple of the alignment that is strictly greater than the
    section's virtual size. *)
Theorem read_length_least_multiple h (m : module) (pe : pe_file)
        (s : section) :
  0 < SectionAlignment pe ->
  exists n,
    reads (fst (memhash.hash_section h m pe s))
    = [(getBaseAddress m + VirtualAddress s, n)]
    /\ n mod SectionAlignment pe = 0
    /\ Misc_VirtualSize s < n
    /\ (forall k,
           k mod SectionAlignment pe = 0 -> Misc_VirtualSize s < k -> n <= k).
Proof.
  intros Hpos.
  assert (Hne : (SectionAlignment pe =? 0) = false) by (apply Z.eqb_neq; lia).
  rewrite hash_section_run, Hne. cbv zeta.
  set (a := SectionAlignment pe) in *. set (v := Misc_VirtualSize s).
  exists (v + (a - v mod a)). split; [reflexivity |].
  pose proof (Z.mod_pos_bound v a Hpos) as Hb.
  pose proof (Z.div_mod v a ltac:(lia)) as Hv.
  assert (Hn : v + (a - v mod a) = (v / a + 1) * a) by lia.
  split; [| split; [lia |]].
  - rewrite Hn. apply Z.mod_mul. lia.
  - intros k Hk Hlt.
    pose proof (Z.div_mod k a ltac:(lia)) as Hkd. rewrite Hk in Hkd.
    rewrite Hn.
    assert (Hq : v / a < k / a).
    { apply Z.nle_gt. intros Hle.
      assert (a * (k / a) <= a * (v / a))
        by (apply Z.mul_le_mono_nonneg_l; lia).
      lia. }
    assert (a * (v / a + 1) <= a * (k / a))
      by (apply Z.mul_le_mono_nonneg_l; lia).
    lia.
Qed.

Lemma read_length_least_multiple_witness :
  exists n,
    reads (fst (memhash.hash_section Sample.host Sample.kernel32
                  (mkPE [] 16) (mkSection ".text" 16 32)))
    = [(4096 + 16, n)]
    /\ n mod 16 = 0 /\ 32 < n
    /\ (forall k, k mod 16 = 0 -> 32 < k -> n <= k).
Proof.
  apply (read_length_least_multiple Sample.host Sample.kernel32
           (mkPE [] 16) (mkSection ".text" 16 32)).
  reflexivity.
Defined.

(* ===================================================================== *)
(** ** The table when a match cannot be shown *)
(* ===================================================================== *)

(** X16.  [_display_results] stops at the first match record it cannot
    show (fewer than three string fields, or a first field that ['%ld']
    refuses): the table has been created and holds the rows of the matches
    before it, and [IndexError] or [TypeError] is raised; the matches
    after it are not looked at. *)
Theorem table_partial_on_bad_match (ms1 : list yara_match) (bad : yara_match)
        (ms2 : list yara_match) :
  forallb displayable ms1 = true ->
  displayable bad = false ->
  exists e,
    memyara._display_results (ms1 ++ bad :: ms2)
    = (CreateTable "Yara matches" ["Rule"; "Offset"; "Identifier"; "Offset"]
         :: map (fun m => TableAdd 0 (row_of m)) ms1,
       Raise e)
    /\ (e = IndexError \/ e = TypeError).
Proof.
  intros H1 Hb.
  destruct (display_match_raises bad Hb) as (e & Hbad & He).
  exists e. split; [| exact He].
  rewrite display_results_run.
  assert (Hd : memyara.display_matches (ms1 ++ bad :: ms2)
               = (map (fun m => TableAdd 0 (row_of m)) ms1, Raise e)).
  { induction ms1 as [| m ms1 IH]; simpl.
    - rewrite Hbad. reflexivity.
    - simpl in H1. apply andb_true_iff in H1 as [Hm H1].
      rewrite (display_match_ok m Hm), (bind_Ok _ _ _ _ eq_refl), (IH H1).
      reflexivity. }
  rewrite Hd. reflexivity.
Qed.

Lemma table_partial_on_bad_match_witness :
  exists e,
    memyara._display_results
      ([Sample.a_match] ++ Sample.short_match :: [Sample.a_match])
    = (CreateTable "Yara matches" ["Rule"; "Offset"; "Identifier"; "Offset"]
         :: map (fun m => TableAdd 0 (row_of m)) [Sample.a_match],
       Raise e)
    /\ (e = IndexError \/ e = TypeError).
Proof.
  apply (table_partial_on_bad_match [Sample.a_match] Sample.short_match
           [Sample.a_match]);
    reflexivity.
Defined.

Lemma display_results_raises ms e :
  snd (memyara._display_results ms) = Raise e ->
  (e = IndexError \/ e = TypeError) /\ forallb displayable ms = false.
Proof.
  rewrite display_results_run. cbn [snd].
  induction ms as [| m ms IH]; simpl; [discriminate |].
  destruct (displayable m) eqn:Hm.
  - rewrite (display_match_ok m Hm), (bind_Ok _ _ _ _ eq_refl). cbn [snd].
    exact IH.
  - destruct (display_match_raises m Hm) as (e' & -> & He).
    cbn [bind snd]. intros H. injection H as <-. split; [exact He | reflexivity].
Qed.

(* ===================================================================== *)
(** ** Every way through [main] *)
(* ===================================================================== *)

(** The runs of memyara's [main]: usage and a message; a failed
    compilation; or a successful one followed by its target. *)
Lemma memyara_main_cases h args :
  (exists s, memyara.main h args = (fst memyara.usage, Ok s))
  \/ (exists path e,
         host_compile h path = Raise e
         /\ memyara.main h args
            = ([YaraCompile path],
               if existsb (exn_eqb e) [YaraSyntaxError; YaraError]
               then Ok (path ++ " is an invalid Yara rules file")
               else Raise e))
  \/ (exists path (r : rules h) target,
         host_compile h path = Ok r
         /\ memyara.main h args = (YaraCompile path :: fst target, snd target)
         /\ ((exists m, target = memyara.run_yara_on_module h m r)
             \/ (exists a0 a1,
                    target = memyara.run_yara_on_address_range h a0 a1 r)
             \/ target
                = (fst memyara.usage,
                   Ok "Incorrect arguments (check log window)"))).
Proof.
  destruct (Getopt.getopt args "hm:r:") as [[opts rest] | e] eqn:Hg.
  - destruct (given "-h" opts) eqn:Hh.
    + left. eexists. unfold memyara.main.
      rewrite Hg, try_except_Ok, (memyara_scan_opts_help _ _ _ Hh).
      reflexivity.
    + destruct (last_value "-r" opts None) as [[| c p] |] eqn:Hr.
      * left. eexists. unfold memyara.main.
        rewrite Hg, try_except_Ok, (memyara_scan_opts_no_help _ _ _ Hh),
          bind_nil_Ok, Hr.
        reflexivity.
      * assert (Hp : String c p <> "") by discriminate.
        destruct (host_compile h (String c p)) as [r | e] eqn:Hc.
        -- right. right.
           rewrite (memyara_main_compiled h _ _ _ _ r Hg Hh Hr Hp Hc).
           cbv zeta. eexists _, r, _.
           split; [exact Hc |]. split; [reflexivity |].
           destruct (last_value "-m" opts None) as [m |].
           ++ destruct (truthy m); [left; eauto |].
              destruct rest as [| a0 [| a1 [| a2 rest]]]; eauto.
           ++ destruct rest as [| a0 [| a1 [| a2 rest]]]; eauto.
        -- right. left. exists (String c p), e. split; [exact Hc |].
           unfold memyara.main.
           rewrite Hg, try_except_Ok, (memyara_scan_opts_no_help _ _ _ Hh),
             bind_nil_Ok, Hr.
           rewrite (truthy_nonempty _ Hp). cbn [negb].
           unfold yara_compile, call, lift, bind at 1. rewrite Hc.
           unfold try_except.
           destruct (existsb (exn_eqb e) [YaraSyntaxError; YaraError]);
             reflexivity.
      * left. eexists. unfold memyara.main.
        rewrite Hg, try_except_Ok, (memyara_scan_opts_no_help _ _ _ Hh),
          bind_nil_Ok, Hr.
        reflexivity.
  - left. eexists.
    apply (proj2 (unparsable_arguments_reported h args e)), Hg.
Qed.

Lemma run_yara_traces h (r : rules h) :
  (forall m,
      compiled (fst (memyara.run_yara_on_module h m r)) = []
      /\ hashed (fst (memyara.run_yara_on_module h m r)) = [])
  /\ (forall a0 a1,
         compiled (fst (memyara.run_yara_on_address_range h a0 a1 r)) = []
         /\ hashed (fst (memyara.run_yara_on_address_range h a0 a1 r)) = []).
Proof.
  split.
  - intros m. rewrite run_yara_on_module_run.
    destruct (host_getModule h (lookup_name m)) as [md |];
      [| split; reflexivity].
    cbv zeta. set (shown := memyara._display_results _).
    destruct (table_calls_only _ (display_results_table_calls
                (host_match h r
                   (host_readMemory h (getBaseAddress md) (getSize md)))))
      as (_ & _ & _ & Hh & Hc).
    fold shown in Hh, Hc. clearbody shown.
    unfold compiled, hashed in *. simpl. rewrite Hh, Hc. split; reflexivity.
  - intros a0 a1. rewrite run_yara_on_address_range_run.
    destruct (int16 a0) as [start |]; [| split; reflexivity].
    destruct (int16 a1) as [end_ |]; [| split; reflexivity].
    destruct (start >=? end_); [split; reflexivity |].
    cbv zeta. set (shown := memyara._display_results _).
    destruct (table_calls_only _ (display_results_table_calls
                (host_match h r (host_readMemory h start (end_ - start)))))
      as (_ & _ & _ & Hh & Hc).
    fold shown in Hh, Hc. clearbody shown.
    unfold compiled, hashed in *. simpl. rewrite Hh, Hc. split; reflexivity.
Qed.

(** X17.  Whatever the arguments, memyara touches the debuggee only after
    a successful compilation: a run either consists of log lines only, or
    starts with the one [yara.compile] call it ever makes; and when that
    call fails nothing follows it. *)
Theorem memyara_compile_first h (args : list string) :
  forallb is_Log (fst (memyara.main h args)) = true
  \/ exists path rest,
      fst (memyara.main h args) = YaraCompile path :: rest
      /\ compiled rest = []
      /\ (forall e, host_compile h path = Raise e -> rest = []).
Proof.
  destruct (memyara_main_cases h args)
    as [[s ->] | [(path & e & Hc & ->) | (path & r & target & Hc & -> & Ht)]].
  - left. reflexivity.
  - right. exists path, []. repeat split.
  - right. exists path, (fst target). split; [reflexivity |].
    split; [| intros e He; congruence].
    destruct (run_yara_traces h r) as [Hm Hr].
    destruct Ht as [[m ->] | [(a0 & a1 & ->) | ->]];
      [apply Hm | apply Hr | reflexivity].
Qed.

(** The runs of memhash's [main], with what was parsed in the module
    case. *)
Lemma memhash_main_cases_parsed h args :
  (exists s, memhash.main h args = (fst memhash.usage, Ok s))
  \/ (exists opts rest m,
         Getopt.getopt args "hm:" = Ok (opts, rest)
         /\ given "-h" opts = false
         /\ last_value "-m" opts None = Some m
         /\ m <> ""
         /\ memhash.main h args = memhash.hash_module h m)
  \/ (exists a0 a1,
         memhash.main h args = memhash.hash_address_range h a0 a1).
Proof.
  destruct (Getopt.getopt args "hm:") as [[opts rest] | e] eqn:Hg.
  - destruct (given "-h" opts) eqn:Hh.
    + left. eexists. unfold memhash.main.
      rewrite Hg, try_except_Ok, (memhash_scan_opts_help _ _ Hh).
      reflexivity.
    + rewrite (memhash_main_parsed h _ _ _ Hg Hh). cbv zeta.
      assert (Ho : (exists s,
                       match rest with
                       | [a0; a1] => memhash.hash_address_range h a0 a1
                       | _ => (fst memhash.usage,
                               Ok "Incorrect arguments (check log window)")
                       end = (fst memhash.usage, Ok s))
                   \/ exists a0 a1,
                       match rest with
                       | [a0; a1] => memhash.hash_address_range h a0 a1
                       | _ => (fst memhash.usage,
                               Ok "Incorrect arguments (check log window)")
                       end = memhash.hash_address_range h a0 a1).
      { destruct rest as [| a0 [| a1 [| a2 rest]]]; eauto. }
      destruct (last_value "-m" opts None) as [m |] eqn:Hm.
      * destruct m as [| c m']; cbn [truthy String.eqb negb].
        -- destruct Ho as [Ho | Ho]; auto.
        -- right. left. exists opts, rest, (String c m').
           split; [first [reflexivity | assumption] |].
           split; [first [reflexivity | assumption] |].
           split; [first [reflexivity | assumption] |].
           split; [discriminate | reflexivity].
      * destruct Ho as [Ho | Ho]; auto.
  - left. eexists.
    apply (proj1 (unparsable_arguments_reported h args e)), Hg.
Qed.

(** X18.  Every run of memhash's [main] returns a string, with one
    exception: the arguments parse without [-h], the last [-m] names a
    non-empty module, the debugger finds it, and then either [PE] raises
    on the module's file or the PE file has sections and section
    alignment 0 ([ZeroDivisionError]).  That run is the lookup, the [PE]
    call and the exception; nothing is read or logged. *)
Theorem memhash_raises_only_in_hash_module h (args : list string) :
  (exists s, snd (memhash.main h args) = Ok s)
  \/ exists opts rest module_name m e,
      Getopt.getopt args "hm:" = Ok (opts, rest)
      /\ given "-h" opts = false
      /\ last_value "-m" opts None = Some module_name
      /\ module_name <> ""
      /\ host_getModule h (lookup_name module_name) = Some m
      /\ memhash.main h args
         = ([GetModule (lookup_name module_name); OpenPE (getPath m)],
            Raise e)
      /\ (host_PE h (getPath m) = Raise e
          \/ exists pe,
              host_PE h (getPath m) = Ok pe
              /\ SectionAlignment pe = 0
              /\ sections pe <> []
              /\ e = ZeroDivisionError).
Proof.
  destruct (memhash_main_cases_parsed h args)
    as [[s ->] | [(opts & rest & mn & Hg & Hh & Hl & Hn & Hmain)
                 | (a0 & a1 & ->)]].
  - left. eexists. reflexivity.
  - rewrite Hmain, hash_module_run.
    destruct (host_getModule h (lookup_name mn)) as [m |] eqn:Hm;
      [| left; eexists; reflexivity].
    destruct (host_PE h (getPath m)) as [pe | e'] eqn:Hpe.
    + cbv zeta.
      destruct (Z.eq_dec (SectionAlignment pe) 0) as [Hz | Hnz].
      * destruct (sections pe) as [| s ss] eqn:Hs;
          [left; eexists; reflexivity |].
        right. exists opts, rest, mn, m, ZeroDivisionError.
        repeat (split; [assumption |]).
        split.
        -- cbn [memhash.hash_sections].
           rewrite hash_section_run, Hz. reflexivity.
        -- right. exists pe.
           split; [first [assumption | reflexivity] |]. split; [exact Hz |].
           split; [first [discriminate | rewrite Hs; discriminate]
                  | reflexivity].
      * left. rewrite (hash_sections_run h m pe _ Hnz).
        eexists. reflexivity.
    + right. exists opts, rest, mn, m, e'.
      repeat (split; [assumption |]).
      split; [reflexivity | left; first [assumption | reflexivity]].
  - left. apply hash_address_range_returns.
Qed.

Lemma memhash_raises_only_in_hash_module_witness :
  exists opts rest module_name m e,
    Getopt.getopt ["-m"; "kernel32"] "hm:" = Ok (opts, rest)
    /\ given "-h" opts = false
    /\ last_value "-m" opts None = Some module_name
    /\ module_name <> ""
    /\ host_getModule Sample.host_bad_pe (lookup_name module_name) = Some m
    /\ memhash.main Sample.host_bad_pe ["-m"; "kernel32"]
       = ([GetModule (lookup_name module_name); OpenPE (getPath m)], Raise e)
    /\ (host_PE Sample.host_bad_pe (getPath m) = Raise e
        \/ exists pe,
            host_PE Sample.host_bad_pe (getPath m) = Ok pe
            /\ SectionAlignment pe = 0
            /\ sections pe <> []
            /\ e = ZeroDivisionError).
Proof.
  destruct (memhash_raises_only_in_hash_module Sample.host_bad_pe
              ["-m"; "kernel32"]) as [[s Hs] | H].
  - discriminate Hs.
  - exact H.
Defined.

(** When a run function of memyara raises, it has matched one buffer and
    one of the records returned for it cannot be shown. *)
Lemma run_yara_raises h (r : rules h) (target : M string) (e : exn) :
  (exists m, target = memyara.run_yara_on_module h m r)
  \/ (exists a0 a1, target = memyara.run_yara_on_address_range h a0 a1 r) ->
  snd target = Raise e ->
  exists data,
    matched (fst target) = [data]
    /\ forallb displayable (host_match h r data) = false
    /\ (e = IndexError \/ e = TypeError).
Proof.
  intros [[m ->] | (a0 & a1 & ->)].
  - rewrite run_yara_on_module_run.
    destruct (host_getModule h (lookup_name m)) as [md |]; [| discriminate].
    cbv zeta. cbn [snd fst].
    set (data := host_readMemory h (getBaseAddress md) (getSize md)).
    destruct (table_calls_only _ (display_results_table_calls
                (host_match h r data))) as (_ & _ & Hx & _).
    destruct (snd (memyara._display_results (host_match h r data)))
      as [u | e'] eqn:Hd; [discriminate |].
    intros H. injection H as <-.
    destruct (display_results_raises _ _ Hd) as [He Hf].
    exists data. split; [| split; assumption].
    unfold matched in *. cbn [flat_map app]. rewrite Hx. reflexivity.
  - rewrite run_yara_on_address_range_run.
    destruct (int16 a0) as [start |]; [| discriminate].
    destruct (int16 a1) as [end_ |]; [| discriminate].
    destruct (start >=? end_); [discriminate |].
    cbv zeta. cbn [snd fst].
    set (data := host_readMemory h start (end_ - start)).
    destruct (table_calls_only _ (display_results_table_calls
                (host_match h r data))) as (_ & _ & Hx & _).
    destruct (snd (memyara._display_results (host_match h r data)))
      as [u | e'] eqn:Hd; [discriminate |].
    intros H. injection H as <-.
    destruct (display_results_raises _ _ Hd) as [He Hf].
    exists data. split; [| split; assumption].
    unfold matched in *. cbn [flat_map app]. rewrite Hx. reflexivity.
Qed.

(** X19.  Every run of memyara's [main] returns a string, with two
    exceptions.  Either the run is the [yara.compile] call alone and ends
    in the exception that call raised, of a class other than
    [YaraSyntaxError] and [YaraError].  Or the rules file the run compiled
    gave rules, the run matched one buffer with them, one of the match
    records returned for that buffer cannot be shown in the table, and the
    run ends in [IndexError] or [TypeError]. *)
Theorem memyara_raises_only_in_compile_or_display h (args : list string) :
  (exists s, snd (memyara.main h args) = Ok s)
  \/ (exists path e,
         host_compile h path = Raise e
         /\ e <> YaraSyntaxError /\ e <> YaraError
         /\ memyara.main h args = ([YaraCompile path], Raise e))
  \/ (exists path (r : rules h) data e,
         compiled (fst (memyara.main h args)) = [path]
         /\ host_compile h path = Ok r
         /\ matched (fst (memyara.main h args)) = [data]
         /\ forallb displayable (host_match h r data) = false
         /\ (e = IndexError \/ e = TypeError)
         /\ snd (memyara.main h args) = Raise e).
Proof.
  destruct (memyara_main_cases h args)
    as [[s ->] | [(path & e' & Hc & ->) | (path & r & target & Hc & -> & Ht)]].
  - left. eexists. reflexivity.
  - destruct (existsb (exn_eqb e') [YaraSyntaxError; YaraError]) eqn:Hx.
    + left. eexists. reflexivity.
    + right. left. exists path, e'.
      split; [exact Hc |].
      destruct e'; cbn in Hx; try discriminate;
        (split; [discriminate | split; [discriminate | reflexivity]]).
  - cbn [fst snd].
    destruct (snd target) as [s | e] eqn:Hs; [left; eexists; reflexivity |].
    right. right.
    assert (Hrun : (exists m, target = memyara.run_yara_on_module h m r)
                   \/ (exists a0 a1,
                          target
                          = memyara.run_yara_on_address_range h a0 a1 r)).
    { destruct Ht as [Hm | [Ha | ->]]; [now left | now right | discriminate]. }
    destruct (run_yara_raises h r target e Hrun Hs) as (data & Hd & Hf & He).
    assert (Hcomp : compiled (fst target) = []).
    { destruct (run_yara_traces h r) as [Tm Tr].
      destruct Hrun as [[m ->] | (a0 & a1 & ->)]; [apply Tm | apply Tr]. }
    assert (Hc1 : compiled (YaraCompile path :: fst target) = [path]).
    { unfold compiled in *. cbn [flat_map app]. rewrite Hcomp. reflexivity. }
    assert (Hm1 : matched (YaraCompile path :: fst target) = [data]).
    { unfold matched in *. cbn [flat_map app]. exact Hd. }
    exists path, r, data, e.
    split; [exact Hc1 |]. split; [exact Hc |]. split; [exact Hm1 |].
    split; [exact Hf |]. split; [exact He | reflexivity].
Qed.

Lemma memyara_raises_only_in_compile_or_display_witness :
  exists path (r : rules Sample.host_short_match) data e,
    compiled (fst (memyara.main Sample.host_short_match
                     ["-r"; "x.yar"; "10"; "12"])) = [path]
    /\ host_compile Sample.host_short_match path = Ok r
    /\ matched (fst (memyara.main Sample.host_short_match
                       ["-r"; "x.yar"; "10"; "12"])) = [data]
    /\ forallb displayable (host_match Sample.host_short_match r data) = false
    /\ (e = IndexError \/ e = TypeError)
    /\ snd (memyara.main Sample.host_short_match ["-r"; "x.yar"; "10"; "12"])
       = Raise e.
Proof.
  destruct (memyara_raises_only_in_compile_or_display Sample.host_short_match
              ["-r"; "x.yar"; "10"; "12"])
    as [[s Hs] | [(path & e & Hc & _) | H]].
  - discriminate Hs.
  - discriminate Hc.
  - exact H.
Defined.

(* ===================================================================== *)
(** ** Printed addresses parse back *)
(* ===================================================================== *)

Lemma hex_digits_acc d p :
  hex_digits (Z.pos p) (HexadecimalString.NilEmpty.string_of_uint d)
  = Some (Z.pos (Pos.of_hex_uint_acc d p)).
Proof.
  revert p. induction d; intros p;
    cbn [HexadecimalString.NilEmpty.string_of_uint hex_digits
         Pos.of_hex_uint_acc];
    [reflexivity | ..];
    match goal with
    | |- context [hex_digit ?c] =>
        let v := eval vm_compute in (hex_digit c) in
        change (hex_digit c) with v
    end;
    rewrite <- IHd; f_equal; lia.
Qed.

Lemma hex_digits_uint d :
  hex_digits 0 (HexadecimalString.NilEmpty.string_of_uint d)
  = Some (Z.of_N (Pos.of_hex_uint d)).
Proof.
  induction d;
    cbn [HexadecimalString.NilEmpty.string_of_uint hex_digits
         Pos.of_hex_uint];
    [reflexivity | ..];
    match goal with
    | |- context [hex_digit ?c] =>
        let v := eval vm_compute in (hex_digit c) in
        change (hex_digit c) with v
    end;
    cbv iota beta;
    [exact IHd | ..];
    match goal with
    | |- hex_digits ?a _ = _ =>
        let v := eval vm_compute in a in change a with v
    end;
    rewrite hex_digits_acc; reflexivity.
Qed.

Lemma hex_digits_nilzero d :
  hex_digits 0 (HexadecimalString.NilZero.string_of_uint d)
  = Some (Z.of_N (N.of_hex_uint d)).
Proof.
  destruct d; try apply hex_digits_uint. reflexivity.
Qed.

Lemma nilzero_nonempty d : HexadecimalString.NilZero.string_of_uint d <> "".
Proof. destruct d; discriminate. Qed.

Lemma hex_digits_zeros n s : hex_digits 0 (zeros n ++ s) = hex_digits 0 s.
Proof. induction n as [| n IH]; [reflexivity | exact IH]. Qed.

Lemma hex_digit_not_space c d : hex_digit c = Some d -> is_space c = false.
Proof.
  destruct c as [b0 b1 b2 b3 b4 b5 b6 b7].
  destruct b0, b1, b2, b3, b4, b5, b6, b7; vm_compute; congruence.
Qed.

Lemma hex_digits_head acc c r v :
  hex_digits acc (String c r) = Some v ->
  exists d, hex_digit c = Some d /\ hex_digits (16 * acc + d) r = Some v.
Proof.
  cbn [hex_digits]. destruct (hex_digit c) as [d |]; [eauto | discriminate].
Qed.

Lemma hex_digits_rstrip acc s v : hex_digits acc s = Some v -> rstrip s = s.
Proof.
  revert acc. induction s as [| c r IH]; intros acc H; [reflexivity |].
  apply hex_digits_head in H as (d & Hd & Hr).
  cbn [rstrip]. rewrite (hex_digit_not_space _ _ Hd). cbn [andb].
  f_equal. exact (IH _ Hr).
Qed.

Lemma hex_digits_strip acc s v : hex_digits acc s = Some v -> strip s = s.
Proof.
  intros H. unfold strip.
  assert (Hl : lstrip s = s).
  { destruct s as [| c r]; [reflexivity |].
    apply hex_digits_head in H as (d & Hd & _).
    cbn [lstrip]. rewrite (hex_digit_not_space _ _ Hd). reflexivity. }
  rewrite Hl. exact (hex_digits_rstrip _ _ _ H).
Qed.

Lemma sign_of_hex c r d :
  hex_digit c = Some d ->
  match String c r with
  | String "-" r' => (true, r')
  | String "+" r' => (false, r')
  | _ => (false, String c r)
  end = (false, String c r).
Proof.
  destruct c as [b0 b1 b2 b3 b4 b5 b6 b7].
  destruct b0, b1, b2, b3, b4, b5, b6, b7; vm_compute; congruence.
Qed.

Lemma prefix_of_hex c c2 r d :
  hex_digit c2 = Some d ->
  match String c (String c2 r) with
  | String "0" (String "x" r') => r'
  | String "0" (String "X" r') => r'
  | _ => String c (String c2 r)
  end = String c (String c2 r).
Proof.
  intros H.
  destruct (Ascii.eqb_spec c "0") as [-> | Hc].
  - destruct c2 as [b0 b1 b2 b3 b4 b5 b6 b7].
    destruct b0, b1, b2, b3, b4, b5, b6, b7; vm_compute in H;
      try discriminate; reflexivity.
  - destruct c as [b0 b1 b2 b3 b4 b5 b6 b7].
    destruct b0, b1, b2, b3, b4, b5, b6, b7; try reflexivity.
    congruence.
Qed.

Lemma int16_hex t v :
  t <> "" -> hex_digits 0 t = Some v -> int16 t = Ok v.
Proof.
  intros Hne H. unfold int16. rewrite (hex_digits_strip _ _ _ H).
  destruct t as [| c r]; [congruence |].
  destruct (hex_digits_head _ _ _ _ H) as (d & Hd & Hr).
  rewrite (sign_of_hex c r d Hd).
  assert (Hp : match String c r with
               | String "0" (String "x" r') => r'
               | String "0" (String "X" r') => r'
               | _ => String c r
               end = String c r).
  { destruct r as [| c2 r2].
    - destruct c as [b0 b1 b2 b3 b4 b5 b6 b7].
      destruct b0, b1, b2, b3, b4, b5, b6, b7; reflexivity.
    - destruct (hex_digits_head _ _ _ _ Hr) as (d2 & Hd2 & _).
      exact (prefix_of_hex c c2 r2 d2 Hd2). }
  rewrite Hp, H. reflexivity.
Qed.

Lemma int16_0x_hex t v :
  t <> "" -> hex_digits 0 t = Some v -> int16 ("0x" ++ t) = Ok v.
Proof.
  intros Hne H. unfold int16, strip.
  change ("0x" ++ t) with (String "0" (String "x" t)).
  change (lstrip (String "0" (String "x" t))) with (String "0" (String "x" t)).
  change (rstrip (String "0" (String "x" t)))
    with (String "0" (String "x" (rstrip t))).
  rewrite (hex_digits_rstrip _ _ _ H).
  cbv iota beta.
  destruct t as [| c r]; [congruence |].
  rewrite H. reflexivity.
Qed.

Lemma hex_digits_fmt_08x z :
  0 <= z -> fmt_08x z <> "" /\ hex_digits 0 (fmt_08x z) = Some z.
Proof.
  intros Hz. unfold fmt_08x.
  assert (Hs : (z <? 0) = false) by (apply Z.ltb_ge; lia).
  rewrite Hs. cbn [append].
  split.
  - pose proof (nilzero_nonempty (N.to_hex_uint (Z.abs_N z))) as Hn.
    destruct (zeros _); [exact Hn | discriminate].
  - rewrite hex_digits_zeros, hex_digits_nilzero, HexadecimalN.Unsigned.of_to.
    rewrite N2Z.inj_abs_N. f_equal. lia.
Qed.

Lemma int16_fmt_08x z :
  0 <= z -> int16 (fmt_08x z) = Ok z /\ int16 ("0x" ++ fmt_08x z) = Ok z.
Proof.
  intros Hz. destruct (hex_digits_fmt_08x z Hz) as [Hn Hh].
  split; [apply int16_hex | apply int16_0x_hex]; assumption.
Qed.

(** X20.  The address-range functions accept their own output: for
    0 <= start < end, given the two addresses as a run prints them
    (['0x%08x']), [hash_address_range] reads exactly [end - start] bytes
    at [start] and returns the message that names those same two strings,
    and [run_yara_on_address_range] reads the same range. *)
Theorem printed_range_parses_back h (r : rules h) (start end_ : Z) :
  0 <= start ->
  start < end_ ->
  let start_addr := "0x" ++ fmt_08x start in
  let end_addr := "0x" ++ fmt_08x end_ in
  memhash.hash_address_range h start_addr end_addr
  = ([ReadMemory start (end_ - start);
      Md5 (host_readMemory h start (end_ - start));
      Log (start_addr ++ " - " ++ end_addr ++ " MD5: "
             ++ host_md5 h (host_readMemory h start (end_ - start)))],
     Ok ("Calculated hash for " ++ start_addr ++ " - " ++ end_addr))
  /\ reads (fst (memyara.run_yara_on_address_range h start_addr end_addr r))
     = [(start, end_ - start)].
Proof.
  intros Hs Hlt start_addr end_addr.
  destruct (int16_fmt_08x start Hs) as [_ H1].
  destruct (int16_fmt_08x end_ ltac:(lia)) as [_ H2].
  fold start_addr in H1. fold end_addr in H2.
  assert (Hb : (start >=? end_) = false).
  { destruct (start >=? end_) eqn:E; [apply Z.geb_le in E; lia | reflexivity]. }
  split.
  - rewrite hash_address_range_run, H1, H2, Hb. reflexivity.
  - rewrite run_yara_on_address_range_run, H1, H2, Hb. cbv zeta.
    set (shown := memyara._display_results _).
    destruct (table_calls_only _ (display_results_table_calls
                (host_match h r (host_readMemory h start (end_ - start)))))
      as (_ & Hr & _).
    fold shown in Hr. clearbody shown.
    unfold reads in *. simpl. rewrite Hr. reflexivity.
Qed.

Lemma printed_range_parses_back_witness :
  memhash.hash_address_range Sample.host "0x00000010" "0x00000012"
  = ([ReadMemory 16 2; Md5 [Byte.x00; Byte.x00];
      Log "0x00000010 - 0x00000012 MD5: d41d8cd98f00b204e9800998ecf8427e"],
     Ok "Calculated hash for 0x00000010 - 0x00000012").
Proof.
  apply (printed_range_parses_back Sample.host tt 16 18); lia.
Defined.

(* ===================================================================== *)
(** ** Arguments [getopt] refuses *)
(* ===================================================================== *)

(** X21.  Neither script knows long options: a first argument [--name]
    with a non-empty name (so [--help] too) makes both [main]s print the
    usage and return ['Incorrect arguments (check log window)']. *)
Theorem long_options_rejected h (long_name : string) (rest : list string) :
  long_name <> "" ->
  memhash.main h (("--" ++ long_name) :: rest)
  = (fst memhash.usage, Ok "Incorrect arguments (check log window)")
  /\ memyara.main h (("--" ++ long_name) :: rest)
     = (fst memyara.usage, Ok "Incorrect arguments (check log window)").
Proof.
  intros Hn. destruct long_name as [| c n]; [congruence |].
  assert (G : forall shortopts,
             Getopt.getopt (("--" ++ String c n) :: rest) shortopts
             = Raise GetoptError).
  { intros shortopts. unfold Getopt.getopt. cbn [Getopt.getopt_loop append].
    reflexivity. }
  unfold memhash.main, memyara.main. rewrite !G. split; reflexivity.
Qed.

Lemma long_options_rejected_witness :
  memhash.main Sample.host ["--help"]
  = (fst memhash.usage, Ok "Incorrect arguments (check log window)").
Proof.
  apply (long_options_rejected Sample.host "help" []). discriminate.
Defined.

(** X22.  A first argument that starts with ['-'] followed by a character
    other than the option letters ([h], [m], and for memyara [r]) and
    other than ['-'] is refused as an unknown option; in particular a
    start address typed with a minus sign never reaches the address-range
    functions unless ['--'] comes first. *)
Theorem unknown_option_letter_rejected h (c : ascii) (t : string)
        (rest : list string) :
  c <> "h"%char -> c <> "m"%char -> c <> "-"%char ->
  memhash.main h (String "-" (String c t) :: rest)
  = (fst memhash.usage, Ok "Incorrect arguments (check log window)")
  /\ (c <> "r"%char ->
      memyara.main h (String "-" (String c t) :: rest)
      = (fst memyara.usage, Ok "Incorrect arguments (check log window)")).
Proof.
  intros Hh Hm Hd.
  apply Ascii.eqb_neq in Hh, Hm.
  assert (Hp : String.prefix "--" (String "-" (String c t)) = false).
  { cbn [String.prefix]. destruct (ascii_dec "-" "-"); [| congruence].
    destruct (ascii_dec "-" c); [congruence | reflexivity]. }
  assert (He : (String "-" (String c t) =? "--")%string = false).
  { apply String.eqb_neq. congruence. }
  assert (G1 : Getopt.getopt (String "-" (String c t) :: rest) "hm:"
               = Raise GetoptError).
  { unfold Getopt.getopt. cbn [Getopt.getopt_loop]. rewrite He, Hp.
    cbn [String.prefix String.eqb String.length String.substring Nat.sub
         negb orb andb Ascii.eqb Bool.eqb Getopt.do_shorts
         Getopt.short_has_arg].
    destruct (ascii_dec "-" "-"); [| congruence].
    cbn [negb orb String.eqb Ascii.eqb Bool.eqb andb].
    rewrite Hh, Hm.
    cbn [andb].
    destruct (Ascii.eqb c ":"); reflexivity. }
  split.
  - unfold memhash.main. rewrite G1. reflexivity.
  - intros Hr. apply Ascii.eqb_neq in Hr.
    assert (G2 : Getopt.getopt (String "-" (String c t) :: rest) "hm:r:"
                 = Raise GetoptError).
    { unfold Getopt.getopt. cbn [Getopt.getopt_loop]. rewrite He, Hp.
      cbn [String.prefix String.eqb String.length String.substring Nat.sub
           negb orb andb Ascii.eqb Bool.eqb Getopt.do_shorts
           Getopt.short_has_arg].
      destruct (ascii_dec "-" "-"); [| congruence].
      cbn [negb orb String.eqb Ascii.eqb Bool.eqb andb].
      rewrite Hh, Hm, Hr.
      cbn [andb].
      destruct (Ascii.eqb c ":"); reflexivity. }
    unfold memyara.main. rewrite G2. reflexivity.
Qed.

Lemma unknown_option_letter_rejected_witness :
  memhash.main Sample.host ["-40000000"; "80000000"]
  = (fst memhash.usage, Ok "Incorrect arguments (check log window)").
Proof.
  apply (proj1 (unknown_option_letter_rejected Sample.host "4" "0000000"
                  ["80000000"] ltac:(discriminate) ltac:(discriminate)
                  ltac:(discriminate))).
Defined.
